(** * release-it: the release pipeline and its npm publish client

    A shallow embedding of [lib/errors.js], [lib/log.js], [lib/npm.js] and
    [lib/tasks.js].  Promises are modelled by a state-and-exception monad
    over a [World] that records every call made to a collaborator; the
    collaborators whose code lives in other modules (git, GitHub, GitLab,
    shell, version, changelog, prompt, metrics) answer through an [Env]
    oracle that may depend on the whole history of the run. *)

From Stdlib Require Import String Ascii List Bool Arith Lia.
From Stdlib Require Import DecimalString.
Import ListNotations.
Open Scope string_scope.

(** ** JavaScript strings *)

Module Js.

Definition EOL : string := String (ascii_of_nat 10) EmptyString.

(** [String.prototype.includes], also what an unanchored literal regular
    expression tests. *)
Fixpoint includes (needle hay : string) : bool :=
  String.prefix needle hay
  || match hay with
     | EmptyString => false
     | String _ rest => includes needle rest
     end.

Definition startsWith (p s : string) : bool := String.prefix p s.

(** Truthiness of a string that may be [undefined]/[null]. *)
Definition truthy (s : option string) : bool :=
  match s with
  | Some (String _ _) => true
  | _ => false
  end.

Definition nonempty (s : string) : option string :=
  match s with
  | EmptyString => None
  | _ => Some s
  end.

(** A double-quoted piece of text. *)
Definition quoted (s : string) : string :=
  String (ascii_of_nat 34) s ++ String (ascii_of_nat 34) EmptyString.

Definition is_some {A} (o : option A) : bool :=
  match o with Some _ => true | None => false end.

(** A default parameter or destructuring default: used on [undefined]. *)
Definition default {A} (d : A) (o : option A) : A :=
  match o with Some a => a | None => d end.

Definition lower_ascii (c : ascii) : ascii :=
  let n := nat_of_ascii c in
  if Nat.leb 65 n && Nat.leb n 90 then ascii_of_nat (n + 32) else c.

Fixpoint toLowerCase (s : string) : string :=
  match s with
  | EmptyString => EmptyString
  | String c r => String (lower_ascii c) (toLowerCase r)
  end.

Definition of_nat (n : nat) : string := NilEmpty.string_of_uint (Nat.to_uint n).

End Js.

(** ** lib/errors.js *)

Module Errors.

(** The classes exported by [errors.js]; [Foreign] stands for any thrown
    value that is not an instance of [ReleaseItError], [TypeError] for the
    engine's own error on a property of [undefined]. *)
Inductive ErrorClass :=
| ReleaseItError
| GitCommitError
| GitHubClientError
| InvalidVersionError
| FileNotFoundError
| DistRepoStageDirError
| GitRepoError
| GitRemoteUrlError
| GitCleanWorkingDirError
| GitUpstreamError
| TokenError
| npmTimeoutError
| npmAuthError
| Foreign
| TypeError.

Record Err := mkErr { cls : ErrorClass; message : string }.

(** [err instanceof ReleaseItError]: every class of the module extends it. *)
Definition instanceofReleaseItError (e : Err) : bool :=
  match cls e with
  | Foreign | TypeError => false
  | _ => true
  end.

(** [err.name]: none of the classes of [errors.js] overrides it. *)
Definition err_name (e : Err) : string :=
  match cls e with
  | TypeError => "TypeError"
  | _ => "Error"
  end.

(** [String(err)] for an [Error]. *)
Definition toString (e : Err) : string :=
  match message e with
  | EmptyString => err_name e
  | m => err_name e ++ ": " ++ m
  end.

Definition newInvalidVersionError : Err :=
  mkErr InvalidVersionError "An invalid version was provided.".

Definition newGitCleanWorkingDirError : Err :=
  mkErr GitCleanWorkingDirError
    ("Working dir must be clean." ++ Js.EOL
     ++ "Please stage and commit your changes." ++ Js.EOL
     ++ "Alternatively, use `--no-git.requireCleanWorkingDir` to include the changes in the release commit"
     ++ " (or save `" ++ String (ascii_of_nat 34) "git.requireCleanWorkingDir"
     ++ String (ascii_of_nat 34) ": false` in the configuration).").

Definition newTokenError (type tokenRef : string) : Err :=
  mkErr TokenError
    ("Environment variable " ++ String (ascii_of_nat 34) tokenRef
     ++ String (ascii_of_nat 34) (" is required for " ++ type ++ " releases.")
     ++ Js.EOL
     ++ "Documentation: https://github.com/webpro/release-it#"
     ++ Js.toLowerCase type ++ "-releases").

Definition newNpmTimeoutError (timeout : nat) : Err :=
  mkErr npmTimeoutError
    ("Unable to reach npm registry (timed out after " ++ Js.of_nat timeout ++ "ms).").

Definition newNpmAuthError : Err :=
  mkErr npmAuthError "Not authenticated with npm. Please `npm login` and try again.".

Definition newFileNotFoundError (filePath : string) : Err :=
  mkErr FileNotFoundError ("File not found (" ++ filePath ++ ")").

Definition newDistRepoStageDirError (stageDir : string) : Err :=
  mkErr DistRepoStageDirError
    ("The `dist.stageDir` (" ++ Js.quoted stageDir
     ++ ") must resolve to a sub directory of current working directory."
     ++ Js.EOL
     ++ "Documentation: https://github.com/webpro/release-it#distribution-repository").

Definition newGitRepoError : Err :=
  mkErr GitRepoError
    "The current directory is not (inside) a Git repository. Use `--no.git` to skip Git steps.".

Definition newGitRemoteUrlError : Err :=
  mkErr GitRemoteUrlError
    ("Could not get remote Git url." ++ Js.EOL ++ "Please add a remote repository.").

Definition newGitUpstreamError : Err :=
  mkErr GitUpstreamError
    ("No upstream configured for current branch." ++ Js.EOL
     ++ "Please set an upstream branch." ++ Js.EOL
     ++ "Alternatively, use `--no-git.requireUpstream` to have this set this by release-it"
     ++ " (or save `" ++ Js.quoted "git.requireUpstream"
     ++ ": false` in the configuration).").

(** What the engine throws for [name.startsWith] when [name] is
    [undefined]. *)
Definition newTypeError (property : string) : Err :=
  mkErr TypeError ("Cannot read property '" ++ property ++ "' of undefined").

(** The errors whose constructor fixes the message. *)
Inductive with_message : Err -> Prop :=
| wm_InvalidVersion : with_message newInvalidVersionError
| wm_FileNotFound filePath : with_message (newFileNotFoundError filePath)
| wm_DistRepoStageDir stageDir : with_message (newDistRepoStageDirError stageDir)
| wm_GitRepo : with_message newGitRepoError
| wm_GitRemoteUrl : with_message newGitRemoteUrlError
| wm_GitCleanWorkingDir : with_message newGitCleanWorkingDirError
| wm_GitUpstream : with_message newGitUpstreamError
| wm_Token type tokenRef : with_message (newTokenError type tokenRef)
| wm_npmTimeout timeout : with_message (newNpmTimeoutError timeout)
| wm_npmAuth : with_message newNpmAuthError.

End Errors.

Import Errors.

(** ** The [semver] package: [semver.prerelease]

    [npm.js] consults the external [semver] package for the prerelease
    components of a version.  This is its strict grammar
    [v?MAJOR.MINOR.PATCH(-PRERELEASE)?(+BUILD)?]: [prerelease] answers
    [null] (here [None]) for a version that does not parse or that has no
    prerelease part, and the dot-separated identifiers otherwise. *)

Module Semver.

Definition is_digit (c : ascii) : bool :=
  let n := nat_of_ascii c in Nat.leb 48 n && Nat.leb n 57.

Definition is_letter (c : ascii) : bool :=
  let n := nat_of_ascii c in
  (Nat.leb 65 n && Nat.leb n 90) || (Nat.leb 97 n && Nat.leb n 122).

Definition is_ident_char (c : ascii) : bool :=
  is_digit c || is_letter c || Ascii.eqb c "-".

Fixpoint all_chars (p : ascii -> bool) (s : string) : bool :=
  match s with
  | EmptyString => true
  | String c r => p c && all_chars p r
  end.

(** Cut a string at the first occurrence of a separator. *)
Fixpoint break (sep : ascii) (s : string) : string * option string :=
  match s with
  | EmptyString => (EmptyString, None)
  | String c r =>
      if Ascii.eqb c sep then (EmptyString, Some r)
      else let (a, b) := break sep r in (String c a, b)
  end.

(** [String.prototype.split] on a one-character separator. *)
Fixpoint split (sep : ascii) (s : string) : list string :=
  match s with
  | EmptyString => [EmptyString]
  | String c r =>
      if Ascii.eqb c sep then EmptyString :: split sep r
      else match split sep r with
           | h :: t => String c h :: t
           | [] => [String c EmptyString]
           end
  end.

Definition MAX_LENGTH : nat := 256.

(** Digits of [Number.MAX_SAFE_INTEGER], 9007199254740991. *)
Definition MAX_SAFE_DIGITS : list nat := [9;0;0;7;1;9;9;2;5;4;7;4;0;9;9;1].

Definition digits (s : string) : list nat :=
  map (fun c => nat_of_ascii c - 48) (list_ascii_of_string s).

Fixpoint lex_leb (a b : list nat) : bool :=
  match a, b with
  | [], _ => true
  | _ :: _, [] => false
  | x :: a', y :: b' => Nat.ltb x y || (Nat.eqb x y && lex_leb a' b')
  end.

(** A numeric identifier without leading zero is safe when it does not
    exceed [MAX_SAFE_INTEGER]. *)
Definition safe (s : string) : bool :=
  let d := digits s in
  Nat.ltb (List.length d) (List.length MAX_SAFE_DIGITS)
  || (Nat.eqb (List.length d) (List.length MAX_SAFE_DIGITS) && lex_leb d MAX_SAFE_DIGITS).

(** [0|[1-9]\d*] *)
Definition numeric_identifier (s : string) : bool :=
  match s with
  | EmptyString => false
  | String c r => all_chars is_digit s && (negb (Ascii.eqb c "0") || String.eqb r "")
  end.

(** [0|[1-9]\d*|\d*[a-zA-Z-][a-zA-Z0-9-]*] *)
Definition prerelease_identifier (s : string) : bool :=
  negb (String.eqb s "") && all_chars is_ident_char s
  && (negb (all_chars is_digit s) || numeric_identifier s).

(** [[0-9A-Za-z-]+] *)
Definition build_identifier (s : string) : bool :=
  negb (String.eqb s "") && all_chars is_ident_char s.

Definition main_version (s : string) : bool :=
  match split "." s with
  | [a; b; c] =>
      numeric_identifier a && numeric_identifier b && numeric_identifier c
      && safe a && safe b && safe c
  | _ => false
  end.

Definition prerelease (version : string) : option (list string) :=
  if Nat.ltb MAX_LENGTH (String.length version) then None
  else
    let s := match version with
             | String "v" r => r
             | _ => version
             end in
    let (rest, build) := break "+" s in
    let (main, pre) := break "-" rest in
    let build_ok := match build with
                    | None => true
                    | Some b => forallb build_identifier (split "." b)
                    end in
    let pre_ok := match pre with
                  | None => true
                  | Some p => forallb prerelease_identifier (split "." p)
                  end in
    if main_version main && pre_ok && build_ok
    then match pre with
         | Some p => Some (split "." p)
         | None => None
         end
    else None.

End Semver.

(** ** The world a run acts on *)

(** The release sequence runs against the primary repository and, when
    configured, against the distribution repository; each has its own
    clients. *)
Inductive Target := Primary | Dist.

(** The prompts [tasks.js] asks for. *)
Inductive PromptId :=
| incrementListPrompt
| versionPrompt
| commitPrompt
| tagPrompt
| pushPrompt
| ghReleasePrompt
| glReleasePrompt
| publishPrompt
| otpPrompt.

(** Calls into the collaborators of [tasks.js] and [npm.js]. *)
Inductive Call :=
| MetricsTrackEvent (action : string)
| MetricsTrackException (e : Err)
| ConfigSetRuntimeVersion
| ConfigSetRuntimeChangelog (changelog : string)
| GitValidate
| GitDistValidate
| GitHubValidate
| GitLabValidate
| ShellRun (command : string)
| ShellRunTemplate (command : string)
| ShellBump
| ShellPushd (dir : string)
| ShellPopd
| VersionSetLatestVersion
| VersionBump (increment : option string)
| VersionAssign (version : string)
| VersionValidate
| ChangelogGenerate
| LogPreview (type text : string)
| ProcessOn (event : string)
| GitStage
| GitStageDir
| PrepareDistRepo
| GitDistInit
| GitDistHandleTagOptions
| GetDistRepoClients
| GitStatus (t : Target)
| GitCommit (t : Target)
| GitTag (t : Target)
| GitPush (t : Target)
| GitHubGetNotes (t : Target)
| GitHubRelease (t : Target) (version : string) (isPreRelease : bool)
    (changelog : option string)
| GitHubUploadAssets (t : Target)
| GitHubGetReleaseUrl (t : Target)
| GitLabGetNotes (t : Target)
| GitLabRelease (t : Target) (version : string) (changelog : option string)
| GitLabGetReleaseUrl (t : Target)
| PromptShow (p : PromptId)
(* properties read off a collaborator; reads are not recorded *)
| VersionGet
| VersionLatest
| VersionIsPreRelease
| VersionIsRecommendation (increment : option string)
| GitHubIsReleased (t : Target)
| GitLabIsReleased (t : Target)
| ProcessUptime
(* what the console prints for an error object: its name, its message and
   its stack, which only the engine knows *)
| Inspect (e : Err).

Inductive Stream := Stdout | Stderr.

(** What a run leaves behind, in order: each call with the error it was
    rejected with (if any), and each line written to the console. *)
Inductive Event :=
| Called (c : Call) (failure : option Err)
| Console (s : Stream) (text : string).

Record World := mkWorld {
  trace : list Event;
  cwd : string;
  dirstack : list string;
  published_primary : bool;
  published_dist : bool
}.

(** [npmClient.isPublished] of the client of a target. *)
Definition isPublished (w : World) (t : Target) : bool :=
  match t with
  | Primary => published_primary w
  | Dist => published_dist w
  end.

Definition emit (ev : Event) (w : World) : World :=
  mkWorld (trace w ++ [ev]) (cwd w) (dirstack w) (published_primary w) (published_dist w).

Definition mark_published (t : Target) (w : World) : World :=
  match t with
  | Primary => mkWorld (trace w) (cwd w) (dirstack w) true (published_dist w)
  | Dist => mkWorld (trace w) (cwd w) (dirstack w) (published_primary w) true
  end.

Definition enter_dir (d : string) (w : World) : World :=
  mkWorld (trace w) d (cwd w :: dirstack w) (published_primary w) (published_dist w).

Definition leave_dir (w : World) : World :=
  match dirstack w with
  | d :: ds => mkWorld (trace w) d ds (published_primary w) (published_dist w)
  | [] => w
  end.

(** The collaborators, as seen from the pipeline: given the history of the
    run, whether a call is rejected (and with which error), the text it
    returns, and whether its result (or the collaborator's flag it reads)
    is truthy. *)
Record Env := mkEnv {
  throws : list Event -> Call -> option Err;
  text : list Event -> Call -> string;
  truth : list Event -> Call -> bool
}.

(** ** Promises: state, exceptions and fuel *)

Inductive outcome (A : Type) :=
| Resolved (a : A)
| Rejected (e : Err)
| Pending.

Arguments Resolved {A} a.
Arguments Rejected {A} e.
Arguments Pending {A}.

Definition M (A : Type) : Type := World -> World * outcome A.

Definition ret {A} (a : A) : M A := fun w => (w, Resolved a).

Definition throw {A} (e : Err) : M A := fun w => (w, Rejected e).

Definition pending {A} : M A := fun w => (w, Pending).

Definition bind {A B} (m : M A) (f : A -> M B) : M B :=
  fun w =>
    match m w with
    | (w', Resolved a) => f a w'
    | (w', Rejected e) => (w', Rejected e)
    | (w', Pending) => (w', Pending)
    end.

(** [promise.catch(handler)] and [try { ... } catch (err) { ... }]. *)
Definition try_catch {A} (m : M A) (handler : Err -> M A) : M A :=
  fun w =>
    match m w with
    | (w', Rejected e) => handler e w'
    | r => r
    end.

(** [promise.then(() => true, () => false)] *)
Definition settles {A} (m : M A) : M bool :=
  fun w =>
    match m w with
    | (w', Resolved _) => (w', Resolved true)
    | (w', Rejected _) => (w', Resolved false)
    | (w', Pending) => (w', Pending)
    end.

Declare Scope promise_scope.
Delimit Scope promise_scope with promise.
Notation "x <- m ;; k" := (bind m (fun x => k))
  (at level 61, m at next level, right associativity) : promise_scope.
Notation "m ;; k" := (bind m (fun _ => k))
  (at level 61, right associativity) : promise_scope.
Open Scope promise_scope.

Definition noop : M unit := ret tt.

Definition when (b : bool) (m : M unit) : M unit := if b then m else noop.

Section Collaborators.

Variable env : Env.

Definition call (c : Call) : M unit :=
  fun w =>
    match throws env (trace w) c with
    | Some e => (emit (Called c (Some e)) w, Rejected e)
    | None => (emit (Called c None) w, Resolved tt)
    end.

Definition call_text (c : Call) : M string :=
  fun w =>
    match throws env (trace w) c with
    | Some e => (emit (Called c (Some e)) w, Rejected e)
    | None => (emit (Called c None) w, Resolved (text env (trace w) c))
    end.

Definition call_truthy (c : Call) : M bool :=
  fun w =>
    match throws env (trace w) c with
    | Some e => (emit (Called c (Some e)) w, Rejected e)
    | None => (emit (Called c None) w, Resolved (truth env (trace w) c))
    end.

(** A collaborator's property, read without calling it. *)
Definition read_text (c : Call) : M string :=
  fun w => (w, Resolved (text env (trace w) c)).

Definition read_truthy (c : Call) : M bool :=
  fun w => (w, Resolved (truth env (trace w) c)).

(** Modelled from the spec: the reports of [lib/metrics.js]
    ([trackEvent], [trackException]) are made on a best-effort basis, so
    the call is recorded and never rejects.  The same serves for what
    cannot reject: registering a process handler, assigning a property. *)
Definition notify (c : Call) : M unit :=
  fun w => (emit (Called c None) w, Resolved tt).

Definition console (s : Stream) (line : string) : M unit :=
  fun w => (emit (Console s line) w, Resolved tt).

(** Modelled from the spec: [pushd] of [lib/shell.js].  The current
    working directory is a single global cursor, which [pushd] moves into a
    directory, keeping the one it leaves on a stack. *)
Definition pushd (dir : string) : M unit :=
  call (ShellPushd dir) ;; fun w => (enter_dir dir w, Resolved tt).

(** Modelled from the spec: [popd] of [lib/shell.js], back to the
    directory [pushd] left. *)
Definition popd : M unit :=
  call ShellPopd ;; fun w => (leave_dir w, Resolved tt).

End Collaborators.

(** ** lib/log.js

    [chalk] only colours the text; the console receives the arguments
    joined by a space. *)

Module Logger.

Definition log (line : string) : M unit := console Stdout line.

Definition error (line : string) : M unit := console Stderr ("ERROR " ++ line).

Definition warn (line : string) : M unit := log ("WARNING " ++ line).

(** The switches of a logger; the constructor defaults them to [false]. *)
Record Logger := mkLogger {
  isInteractive : bool;
  isVerbose : bool;
  isDryRun : bool
}.

(** An argument of [exec]: a string, a boolean, or anything else. *)
Inductive Arg :=
| Str (s : string)
| Bool (b : bool)
| Other.

(** [_.filter(args, _.isString)] *)
Definition strings (args : list Arg) : list string :=
  flat_map (fun a => match a with Str s => [s] | _ => [] end) args.

(** [chalk.grey(...args)] joins its arguments as the console does. *)
Definition info (logger : Logger) (args : list string) : M unit :=
  when (isInteractive logger) (log (String.concat " " args)).

Definition verbose (logger : Logger) (args : list string) : M unit :=
  when (isVerbose logger) (log (String.concat " " args)).

(** [_.last] of no argument is [undefined]. *)
Definition exec (logger : Logger) (args : list Arg) : M unit :=
  if isVerbose logger || isDryRun logger then
    let isNotExecuted :=
      match last args Other with
      | Bool true => false
      | _ => true
      end in
    let prefix := if isNotExecuted then "!" else "$" in
    log (String.concat " " (prefix :: strings args))
  else noop.

End Logger.

(** ** lib/npm.js *)

(** [name] is [undefined] for options that carry none. *)
Record NpmOptions := mkNpmOptions {
  npm_name : option string;
  npm_publishPath : option string;
  npm_access : option string;
  npm_private : bool;
  npm_publish : bool;
  npm_tag : option string;
  npm_otp : option string;
  npm_isDryRun : bool
}.

(** An OTP callback receives the retry, a task awaiting an OTP. *)
Definition OtpCallback : Type := (option string -> M unit) -> M unit.

Module Npm.

Definition REGISTRY_TIMEOUT : nat := 5000.
Definition DEFAULT_TAG : string := "latest".
Definition NPM_BASE_URL : string := "https://www.npmjs.com/package/".

Section Client.

Variable env : Env.
(** The client of which repository; it owns [isPublished] of that one. *)
Variable self : Target.
Variable options : NpmOptions.

(** The race of [npm ping] against [rejectAfter(REGISTRY_TIMEOUT)]: the
    call is rejected when the ping fails or loses the race. *)
Definition isRegistryUp : M bool :=
  settles (call env (ShellRun "npm ping")).

Definition isAuthenticated : M bool :=
  settles (call env (ShellRun "npm whoami")).

Definition validate : M unit :=
  if negb (npm_publish options) then noop
  else
    up <- isRegistryUp ;;
    if negb up then throw (newNpmTimeoutError REGISTRY_TIMEOUT)
    else
      auth <- isAuthenticated ;;
      if negb auth then throw newNpmAuthError
      else noop.

(** A template literal prints a missing name as [undefined]. *)
Definition getPackageUrl : string :=
  NPM_BASE_URL ++ Js.default "undefined" (npm_name options).

Definition getTag (tag version : option string) (isPreRelease : bool) : string :=
  let tag := Js.default DEFAULT_TAG tag in
  if negb isPreRelease || negb (Js.truthy version) then tag
  else
    let preReleaseComponents := Semver.prerelease (Js.default "" version) in
    match preReleaseComponents with
    | Some (first :: _) => first
    | _ => tag
    end.

(** The command line handed to [shell.run]; [publish] gets here only with
    a name. *)
Definition publishCommand (tag version : option string) (isPreRelease : bool)
    (otp : option string) : string :=
  let publishPath := Js.default "." (npm_publishPath options) in
  let resolvedTag := getTag tag version isPreRelease in
  let isScopedPkg := Js.startsWith "@" (Js.default "" (npm_name options)) in
  let accessArg :=
    if isScopedPkg && Js.truthy (npm_access options)
    then "--access " ++ Js.default "" (npm_access options) else "" in
  let otpArg := if Js.truthy otp then "--otp " ++ Js.default "" otp else "" in
  let dryRunArg := if npm_isDryRun options then "--dry-run" else "" in
  "npm publish " ++ publishPath ++ " --tag " ++ resolvedTag ++ " " ++ accessArg
    ++ " " ++ otpArg ++ " " ++ dryRunArg.

(** [tag] and [otp] default to the client's options.  The arguments of the
    command are computed first: [name.startsWith] throws for options
    without a name, before the package is looked at.  [debug(err)] only
    writes diagnostics and is left out.  Every invocation spends one unit
    of fuel: the retry through the OTP callback may go on for as long as
    the registry rejects the passwords. *)
Fixpoint publish (fuel : nat) (tag version : option string) (isPreRelease : bool)
    (otp : option string) (otpCallback : option OtpCallback) : M unit :=
  match fuel with
  | O => pending
  | S fuel' =>
      let tag := match tag with Some _ => tag | None => npm_tag options end in
      let otp := match otp with Some _ => otp | None => npm_otp options end in
      match npm_name options with
      | None => throw (newTypeError "startsWith")
      | Some _ =>
          if npm_private options then
            Logger.warn "Skip publish: package is private." ;;
            noop
          else
            try_catch
              (call env (ShellRun (publishCommand tag version isPreRelease otp)) ;;
               fun w => (mark_published self w, Resolved tt))
              (fun err =>
                 if Js.includes "one-time pass" (toString err) then
                   when (Js.is_some otp)
                     (Logger.warn "The provided OTP is incorrect or has expired.") ;;
                   match otpCallback with
                   | Some callback =>
                       callback (fun otp =>
                         publish fuel' tag version isPreRelease otp otpCallback)
                   | None => throw err
                   end
                 else throw err)
      end
  end.

End Client.

End Npm.

(** ** Steps: spinner and prompt *)

(** The descriptor both [spinner.show] and [prompt.show] take. *)
Record Step := mkStep {
  enabled : option bool;
  task : M unit;
  label : option string;
  prompt : option PromptId;
  forced : bool
}.

Module Spinner.

(** [show], as the test suite stubs it:
    [({ enabled = true, task }) => (enabled ? task() : noop)]. *)
Definition show (d : Step) : M unit :=
  if Js.default true (enabled d) then task d else noop.

End Spinner.

Module Prompt.

Section Prompt.

Variable env : Env.

(** Modelled from the spec: [prompt.show] ([lib/prompt.js]).  A disabled
    step is skipped; a step with a prompt identifier asks for
    confirmation and runs its task when confirmed, declining skips it
    without aborting; a step without one behaves as unattended. *)
Definition show (d : Step) : M unit :=
  if Js.default true (enabled d) then
    match prompt d with
    | Some p =>
        confirmed <- call_truthy env (PromptShow p) ;;
        if confirmed then task d else noop
    | None => task d
    end
  else noop.

(** Modelled from the spec: [prompt.show] ([lib/prompt.js]) for a prompt
    that asks for a value ([otp], [incrementList], [version]): the
    answer is obtained and handed to the task. *)
Definition ask {A} (p : PromptId) (task : string -> M A) : M A :=
  answer <- call_text env (PromptShow p) ;;
  task answer.

End Prompt.

End Prompt.

(** ** lib/tasks.js

    [runTasks] starts from the options that [Config] and [handleDeprecated]
    have resolved; building the clients has no effect of its own.  Every
    call to a client is recorded with its outcome; what a client does
    inside is the oracle's business. *)

Record GitOptions := mkGitOptions {
  git_commit : bool;
  git_tag : bool;
  git_push : bool;
  git_requireCleanWorkingDir : bool
}.

Record GitHubOptions := mkGitHubOptions {
  github_release : bool;
  github_releaseNotes : option string;
  github_assets : option (list string)
}.

Record GitLabOptions := mkGitLabOptions {
  gitlab_release : bool;
  gitlab_releaseNotes : option string
}.

(** Lifecycle hooks; an unset script is [null]. *)
Record Scripts := mkScripts {
  beforeStart : option string;
  beforeBump : option string;
  afterBump : option string;
  beforeStage : option string;
  afterRelease : option string
}.

Record DistOptions := mkDistOptions {
  dist_repo : option string;
  dist_stageDir : string;
  dist_scripts : Scripts;
  dist_git : GitOptions;
  dist_github : GitHubOptions;
  dist_gitlab : GitLabOptions;
  dist_npm : NpmOptions
}.

Record Options := mkOptions {
  name : string;
  increment : option string;
  pkgFiles : option (list string);
  scripts : Scripts;
  git : GitOptions;
  github : GitHubOptions;
  gitlab : GitLabOptions;
  npm : NpmOptions;
  dist : DistOptions
}.

Record Config := mkConfig {
  isInteractive : bool;
  options : Options
}.

(** The clients [release] is handed, with the options each one owns. *)
Record ClientSet := mkClientSet {
  target : Target;
  gitClient : GitOptions;
  ghClient : GitHubOptions;
  glClient : GitLabOptions;
  npmClient : NpmOptions;
  clientScripts : Scripts
}.

Record PipelineResult := mkResult {
  result_name : string;
  result_changelog : option string;
  result_latestVersion : string;
  result_version : string
}.

Module Tasks.

Definition LINK : string := "🔗 ".
Definition ROCKET : string := "🚀 ".
Definition FLAG : string := "🏁 ".

Section RunTasks.

Variable env : Env.
Variable config : Config.
(** Fuel for the OTP retries of a publish. *)
Variable fuel : nat.

Definition run (command : string) : M unit := call env (ShellRunTemplate command).

(** [spinner.show({ enabled: script, task: () => run(script), label:
    script, forced: true })] *)
Definition hook (script : option string) : M unit :=
  Spinner.show
    (mkStep (Some (Js.truthy script)) (run (Js.default "" script)) script None true).

Definition step (d : Step) : M unit :=
  if isInteractive config then Prompt.show env d else Spinner.show d.

Definition generateAndPreviewChangelog : M string :=
  changelog <- call_text env ChangelogGenerate ;;
  call env (LogPreview "changelog" changelog) ;;
  ret changelog.

(** [task => prompt.show({ prompt: 'otp', task })] *)
Definition askOtp : OtpCallback :=
  fun task => Prompt.ask env otpPrompt (fun otp => task (Some otp)).

(** The validations of the clients, in the order [runTasks] runs them. *)
Definition validateAll : M unit :=
  call env GitValidate ;;
  call env GitDistValidate ;;
  call env GitHubValidate ;;
  call env GitLabValidate ;;
  Npm.validate env (npm (options config)).

(** The closure [release], with the variables it captures, one
    definition for each of its parts. *)
Section Release.

Variable version : string.
Variable isPreRelease : bool.
Variable changelog : option string.
Variable clients : ClientSet.

Let t := target clients.
Let git := gitClient clients.
Let github := ghClient clients.
Let gitlab := glClient clients.
Let npm := npmClient clients.

(* Git *)
Definition releaseGit : M unit :=
  when (git_commit git)
    (status <- call_text env (GitStatus t) ;;
     call env (LogPreview "changeset" status)) ;;
  step (mkStep (Some (git_commit git)) (call env (GitCommit t))
          (Some "Git commit") (Some commitPrompt) false) ;;
  step (mkStep (Some (git_tag git)) (call env (GitTag t))
          (Some "Git tag") (Some tagPrompt) false) ;;
  step (mkStep (Some (git_push git)) (call env (GitPush t))
          (Some "Git push") (Some pushPrompt) false).

Definition ghRelease : M bool :=
  call_truthy env (GitHubRelease t version isPreRelease changelog).

Definition ghUploadAssets : M unit := call env (GitHubUploadAssets t).

(** The release and the upload of its assets: one step when
    interactive, two steps otherwise. *)
Definition githubSteps : M unit :=
  if isInteractive config then
    let release :=
      released <- ghRelease ;;
      if released then ghUploadAssets else noop in
    step (mkStep (Some (github_release github)) release
            (Some "GitHub release") (Some ghReleasePrompt) false)
  else
    step (mkStep (Some (github_release github)) (ghRelease ;; noop)
            (Some "GitHub release") None false) ;;
    step (mkStep (Some (Js.is_some (github_assets github))) ghUploadAssets
            (Some "GitHub upload assets") None false).

(* GitHub *)
Definition releaseGitHub : M unit :=
  when (github_release github && Js.truthy (github_releaseNotes github))
    (notes <- call_text env (GitHubGetNotes t) ;;
     call env (LogPreview "release notes" notes)) ;;
  githubSteps.

(* GitLab *)
Definition releaseGitLab : M unit :=
  when (gitlab_release gitlab && Js.truthy (gitlab_releaseNotes gitlab))
    (notes <- call_text env (GitLabGetNotes t) ;;
     call env (LogPreview "release notes" notes)) ;;
  step (mkStep (Some (gitlab_release gitlab)) (call env (GitLabRelease t version changelog))
          (Some "GitLab release") (Some glReleasePrompt) false).

(* npm *)
Definition releaseNpm : M unit :=
  let otpCallback : option OtpCallback :=
    if isInteractive config then Some askOtp else None in
  let publish :=
    Npm.publish env t npm fuel None (Js.nonempty version) isPreRelease None
      otpCallback in
  step (mkStep (Some (npm_publish npm)) publish
          (Some "npm publish") (Some publishPrompt) false).

(** The links to what was released, one line for each client whose
    flag is set. *)
Definition logUrls : M unit :=
  ghReleased <- read_truthy env (GitHubIsReleased t) ;;
  when ghReleased
    (url <- read_text env (GitHubGetReleaseUrl t) ;; Logger.log (LINK ++ url)) ;;
  glReleased <- read_truthy env (GitLabIsReleased t) ;;
  when glReleased
    (url <- read_text env (GitLabGetReleaseUrl t) ;; Logger.log (LINK ++ url)) ;;
  npmPublished <- (fun w => (w, Resolved (isPublished w t))) ;;
  when npmPublished (Logger.log (LINK ++ Npm.getPackageUrl npm)).

(* Wrap up *)
Definition wrapUp : M unit :=
  hook (afterRelease (clientScripts clients)) ;;
  logUrls.

Definition release : M unit :=
  releaseGit ;;
  releaseGitHub ;;
  releaseGitLab ;;
  releaseNpm ;;
  wrapUp.

End Release.

Definition distClients : ClientSet :=
  let d := dist (options config) in
  mkClientSet Dist (dist_git d) (dist_github d) (dist_gitlab d) (dist_npm d)
    (dist_scripts d).

Definition primaryClients : ClientSet :=
  let o := options config in
  mkClientSet Primary (git o) (github o) (gitlab o) (npm o) (scripts o).

(** What the pipeline has settled when the release sequence starts. *)
Record Prepared := mkPrepared {
  p_version : string;
  p_isPreRelease : bool;
  p_changelog : option string;
  p_latestVersion : string
}.

(** The [try] block up to the definition of [release]: validation,
    version resolution, changelog, bump and staging. *)
Definition prepare : M Prepared :=
  let o := options config in
  let distRepo := dist_repo (dist o) in
  when (Js.truthy distRepo)
    (Logger.warn
       ("The " ++ Js.quoted "dist.repo" ++ " option is deprecated. Please see "
        ++ "https://github.com/webpro/release-it#distribution-repository for details more.")) ;;
  notify (MetricsTrackEvent "start") ;;
  validateAll ;;
  hook (beforeStart (scripts o)) ;;
  call env VersionSetLatestVersion ;;
  call env (VersionBump (increment o)) ;;
  call env ConfigSetRuntimeVersion ;;
  latestVersion <- read_text env VersionLatest ;;
  (* Let's get this party started *)
  bumped <- read_text env VersionGet ;;
  let suffix :=
    if Js.truthy (Some bumped) then latestVersion ++ "..." ++ bumped
    else "currently at " ++ latestVersion in
  Logger.log (Js.EOL ++ ROCKET ++ "Let's release " ++ name o ++ " (" ++ suffix ++ ")") ;;
  (* changelog generation is deferred until after the bump for a recommendation *)
  isDeferChangeLog <- read_truthy env (VersionIsRecommendation (increment o)) ;;
  early <-
    (if negb isDeferChangeLog then
       changelog <- generateAndPreviewChangelog ;;
       call env (ConfigSetRuntimeChangelog changelog) ;;
       ret (Some changelog)
     else ret None) ;;
  (* Prompt for version if not determined yet *)
  bumped <- read_text env VersionGet ;;
  when (isInteractive config && negb (Js.truthy (Some bumped)))
    (Prompt.ask env incrementListPrompt (fun increment =>
       if Js.truthy (Some increment)
       then call env (VersionBump (Some increment))
       else Prompt.ask env versionPrompt (fun version =>
              notify (VersionAssign version)))) ;;
  call env VersionValidate ;;
  call env ConfigSetRuntimeVersion ;;
  version <- read_text env VersionGet ;;
  isPreRelease <- read_truthy env VersionIsPreRelease ;;
  when (isInteractive config && Js.is_some (pkgFiles o)
        && git_requireCleanWorkingDir (git o))
    (notify (ProcessOn "SIGINT") ;; notify (ProcessOn "exit")) ;;
  (* Bump *)
  hook (beforeBump (scripts o)) ;;
  Spinner.show (mkStep None (call env ShellBump) (Some "Bump version") None false) ;;
  hook (afterBump (scripts o)) ;;
  (* Deferred changelog generation after bump *)
  changelog <-
    (if isDeferChangeLog then
       changelog <- generateAndPreviewChangelog ;;
       call env (ConfigSetRuntimeChangelog changelog) ;;
       ret (Some changelog)
     else ret early) ;;
  hook (beforeStage (scripts o)) ;;
  call env GitStage ;;
  call env GitStageDir ;;
  when (Js.truthy distRepo) (call env PrepareDistRepo) ;;
  ret (mkPrepared version isPreRelease changelog latestVersion).

(** The distribution repository is released from its staging directory. *)
Definition releaseDist (p : Prepared) : M unit :=
  let stageDir := dist_stageDir (dist (options config)) in
  pushd env stageDir ;;
  call env GitDistInit ;;
  call env GitDistHandleTagOptions ;;
  call env GetDistRepoClients ;;
  release (p_version p) (p_isPreRelease p) (p_changelog p) distClients ;;
  popd env ;;
  run ("!rm -rf " ++ stageDir).

(** The body of the [try] block. *)
Definition pipeline : M PipelineResult :=
  p <- prepare ;;
  release (p_version p) (p_isPreRelease p) (p_changelog p) primaryClients ;;
  when (Js.truthy (dist_repo (dist (options config)))) (releaseDist p) ;;
  notify (MetricsTrackEvent "end") ;;
  uptime <- read_text env ProcessUptime ;;
  Logger.log (FLAG ++ "Done (in " ++ uptime ++ "s.)") ;;
  ret (mkResult (name (options config)) (p_changelog p) (p_latestVersion p)
         (p_version p)).

(** The [catch] clause: report, log, and throw the error again.  An error
    object handed to the console is printed as the engine inspects it. *)
Definition handler (err : Err) : M PipelineResult :=
  notify (MetricsTrackException err) ;;
  (if instanceofReleaseItError err then
     match message err with
     | EmptyString => raw <- read_text env (Inspect err) ;; Logger.error raw
     | m => Logger.error m
     end
   else raw <- read_text env (Inspect err) ;; console Stderr raw) ;;
  throw err.

Definition runTasks : M PipelineResult := try_catch pipeline handler.

End RunTasks.

End Tasks.

(** ** Vocabulary of the properties *)

(** An OTP callback that obtains the password [fresh] and runs the retry
    once with it; obtaining it moves the world from [w1] to [w2]. *)
Definition supplies (callback : OtpCallback) (fresh : string) (w1 w2 : World) : Prop :=
  forall task, callback task w1 = task (Some fresh) w2.

(** [m], started where [P] holds, ends where [Q] holds of its result when
    it resolves, and where [X] holds when it does not. *)
Definition hoare {A} (P : World -> Prop) (m : M A) (Q : A -> World -> Prop)
    (X : World -> Prop) : Prop :=
  forall w w' r,
    P w -> m w = (w', r) ->
    match r with
    | Resolved a => Q a w'
    | _ => X w'
    end.

(** [m] keeps [I], however it ends. *)
Definition preserves {A} (I : World -> Prop) (m : M A) : Prop :=
  forall w w' r, I w -> m w = (w', r) -> I w'.

(** [I] survives the recording of an event that [allowed] lets through. *)
Definition admits (allowed : Event -> bool) (I : World -> Prop) : Prop :=
  forall ev w, allowed ev = true -> I w -> I (emit ev w).

Definition any_event (ev : Event) : bool := true.

(** [I] does not look at the [isPublished] flags. *)
Definition ignores_published (I : World -> Prop) : Prop :=
  forall t w, I w -> I (mark_published t w).

(** [I] does not look at the working directory. *)
Definition ignores_dirs (I : World -> Prop) : Prop :=
  forall w, I w -> (forall d, I (enter_dir d w)) /\ I (leave_dir w).

(** The trace of [w'] continues the trace of [w] with the events [l]. *)
Definition continues (w : World) (l : list Event) (w' : World) : Prop :=
  trace w' = (trace w ++ l)%list.

(** The mutating steps: bump, stage, commit, tag, push, release (with the
    upload of its assets) and publish. *)
Definition is_mutating (c : Call) : bool :=
  match c with
  | ShellBump | GitStage | GitStageDir => true
  | GitCommit _ | GitTag _ | GitPush _ => true
  | GitHubRelease _ _ _ _ | GitHubUploadAssets _ | GitLabRelease _ _ _ => true
  | ShellRun command => Js.startsWith "npm publish" command
  | _ => false
  end.

(** The validations that must have resolved: the four clients, and the
    registry checks of the npm client when it is to publish. *)
Definition validations (o : Options) : list Event :=
  [Called GitValidate None; Called GitDistValidate None;
   Called GitHubValidate None; Called GitLabValidate None]
  ++ (if npm_publish (npm o)
      then [Called (ShellRun "npm ping") None; Called (ShellRun "npm whoami") None]
      else []).

(** Orderings of a trace.  [guarded] picks the calls that have to wait,
    [required] lists the events they wait for. *)
Definition unguarded (guarded : Call -> bool) (ev : Event) : bool :=
  match ev with
  | Called c _ => negb (guarded c)
  | Console _ _ => true
  end.

(** Every guarded call of [l] comes after all the required events. *)
Definition gated (guarded : Call -> bool) (required l : list Event) : Prop :=
  forall l1 c f l2,
    l = (l1 ++ Called c f :: l2)%list -> guarded c = true -> incl required l1.

(** Since [w0] no guarded call was made, and the events [seen] were
    recorded. *)
Definition waiting (guarded : Call -> bool) (w0 : World) (seen : list Event)
    (w : World) : Prop :=
  exists l, continues w0 l w
            /\ (forall ev, In ev l -> unguarded guarded ev = true)
            /\ incl seen l.

(** Since [w0], guarded calls came after the required events. *)
Definition gate_kept (guarded : Call -> bool) (required : list Event)
    (w0 w : World) : Prop :=
  exists l, continues w0 l w /\ gated guarded required l.

(** Since [w0], guarded calls came after the required events, which have
    all been recorded. *)
Definition gate_open (guarded : Call -> bool) (required : list Event)
    (w0 w : World) : Prop :=
  exists l, continues w0 l w /\ gated guarded required l /\ incl required l.


Definition is_bump (c : Call) : bool :=
  match c with
  | ShellBump => true
  | _ => false
  end.


(** The bump step is over: the manifest was rewritten and the [afterBump]
    hook, if there is one, has run. *)
Definition bumped (o : Options) : list Event :=
  Called ShellBump None
  :: (if Js.truthy (afterBump (scripts o))
      then [Called (ShellRunTemplate (Js.default "" (afterBump (scripts o)))) None]
      else []).



(** The calls made to the clients of the distribution repository. *)
Definition of_dist (c : Call) : bool :=
  match c with
  | GitDistInit | GitDistHandleTagOptions => true
  | GitStatus Dist | GitCommit Dist | GitTag Dist | GitPush Dist => true
  | GitHubGetNotes Dist | GitHubRelease Dist _ _ _ | GitHubUploadAssets Dist => true
  | GitLabGetNotes Dist | GitLabRelease Dist _ _ => true
  | _ => false
  end.


(** The working directory is [dir], on top of the directories [stack]. *)
Definition at_dir (dir : string) (stack : list string) (w : World) : Prop :=
  cwd w = dir /\ dirstack w = stack.

Definition is_shell_run (ev : Event) : bool :=
  match ev with
  | Called (ShellRun _) _ => true
  | _ => false
  end.

(** How many commands the shell was asked to run. *)
Definition attempts (l : list Event) : nat := List.length (filter is_shell_run l).

Definition is_prompt (c : Call) : bool :=
  match c with
  | PromptShow _ => true
  | _ => false
  end.

(** Whatever is done only for a distribution repository. *)
Definition dist_call (c : Call) : bool :=
  of_dist c
  || match c with
     | ShellPushd _ | ShellPopd | PrepareDistRepo | GetDistRepoClients => true
     | _ => false
     end.

Definition is_publish_command (c : Call) : bool :=
  match c with
  | ShellRun command => Js.startsWith "npm publish" command
  | _ => false
  end.

(** The reports that close a run. *)
Definition is_closing (c : Call) : bool :=
  match c with
  | MetricsTrackEvent action => String.eqb action "end"
  | MetricsTrackException _ => true
  | _ => false
  end.

(** The commands handed to [shell.runTemplateCommand], in order. *)
Definition templates (l : list Event) : list string :=
  flat_map (fun ev => match ev with
                      | Called (ShellRunTemplate command) _ => [command]
                      | _ => []
                      end) l.

(** The commands handed to [shell.run], in order. *)
Definition commands (l : list Event) : list string :=
  flat_map (fun ev => match ev with
                      | Called (ShellRun command) _ => [command]
                      | _ => []
                      end) l.

(** A hook script, when one is configured. *)
Definition configured (script : option string) : list string :=
  if Js.truthy script then [Js.default "" script] else [].

(** Since [w0], [project] reads [xs] off the events recorded. *)
Definition ran (project : list Event -> list string) (w0 : World) (xs : list string)
    (w : World) : Prop :=
  exists l, continues w0 l w /\ project l = xs.

(** The validations of the clients and of the version. *)
Definition version_validated (o : Options) : list Event :=
  validations o
  ++ [Called VersionSetLatestVersion None; Called (VersionBump (increment o)) None;
      Called VersionValidate None].

(** The steps of an unattended release that come before the publish, those
    that are enabled. *)
Definition steps_before_publish (version : string) (isPreRelease : bool)
    (changelog : option string) (clients : ClientSet) : list Event :=
  let t := target clients in
  (if git_commit (gitClient clients) then [Called (GitCommit t) None] else [])
  ++ (if git_tag (gitClient clients) then [Called (GitTag t) None] else [])
  ++ (if git_push (gitClient clients) then [Called (GitPush t) None] else [])
  ++ (if github_release (ghClient clients)
      then [Called (GitHubRelease t version isPreRelease changelog) None] else [])
  ++ (if Js.is_some (github_assets (ghClient clients))
      then [Called (GitHubUploadAssets t) None] else [])
  ++ (if gitlab_release (glClient clients)
      then [Called (GitLabRelease t version changelog) None] else []).

Definition is_template (c : Call) : bool :=
  match c with
  | ShellRunTemplate _ => true
  | _ => false
  end.

Definition is_command (c : Call) : bool :=
  match c with
  | ShellRun _ => true
  | _ => false
  end.

(** The hooks of a whole run in the order of the lifecycle, those that are
    configured; a distribution repository adds its own [afterRelease] and
    the removal of the staging directory. *)
Definition lifecycle (o : Options) : list string :=
  configured (beforeStart (scripts o))
  ++ configured (beforeBump (scripts o))
  ++ configured (afterBump (scripts o))
  ++ configured (beforeStage (scripts o))
  ++ configured (afterRelease (scripts o))
  ++ (if Js.truthy (dist_repo (dist o))
      then configured (afterRelease (dist_scripts (dist o)))
           ++ ["!rm -rf " ++ dist_stageDir (dist o)]
      else []).

(** The publish command of an unattended release, when the client is to
    publish a package that is not private. *)
Definition published_by (o : NpmOptions) (version : string) (isPreRelease : bool)
    : list string :=
  if npm_publish o && negb (npm_private o)
  then [Npm.publishCommand o (npm_tag o) (Js.nonempty version) isPreRelease (npm_otp o)]
  else [].

(** The checks of the registry, when the primary client is to publish. *)
Definition registry_checks (o : NpmOptions) : list string :=
  if npm_publish o then ["npm ping"; "npm whoami"] else [].

(** The steps of the release sequence that are confirmed one by one when
    the run is interactive. *)
Definition is_confirmed (c : Call) : bool :=
  match c with
  | GitCommit _ | GitTag _ | GitPush _ => true
  | GitHubRelease _ _ _ _ | GitHubUploadAssets _ | GitLabRelease _ _ _ => true
  | ShellRun command => Js.startsWith "npm publish" command
  | _ => false
  end.

(** The registration of a handler with [process.on]. *)
Definition is_handler (c : Call) : bool :=
  match c with
  | ProcessOn _ => true
  | _ => false
  end.

(** Whether the pipeline registers the handlers that reset the package
    files. *)
Definition resets_on_exit (config : Config) : bool :=
  isInteractive config && Js.is_some (pkgFiles (options config))
  && git_requireCleanWorkingDir (git (options config)).

(** What a run may record and go on: a call that resolved, or a command
    of the shell, whose rejection [npm.js] catches. *)
Definition survivable (ev : Event) : bool :=
  match ev with
  | Called c f => is_command c || negb (Js.is_some f)
  | Console _ _ => true
  end.

(** Since [w0] only such events were recorded. *)
Definition unbroken (w0 w : World) : Prop :=
  exists l, continues w0 l w /\ forall ev, In ev l -> survivable ev = true.

(** [m] keeps [I], unless a call rejects it: then the rejected call is the
    last thing recorded, and its error the error of [m]. *)
Definition stops {A} (I : World -> Prop) (m : M A) : Prop :=
  forall w w' r,
    I w -> m w = (w', r) ->
    match r with
    | Rejected e => I w' \/ exists w1 c, I w1 /\ w' = emit (Called c (Some e)) w1
    | _ => I w'
    end.

(** The line the [catch] clause writes for the error [e] caught in the
    world [w]: the message of a [ReleaseItError] that has one behind
    [ERROR], the error object as the console prints it otherwise. *)
Definition errorLine (env : Env) (e : Err) (w : World) : string :=
  let raw := text env (trace w ++ [Called (MetricsTrackException e) None]) (Inspect e) in
  if instanceofReleaseItError e
  then "ERROR " ++ match message e with
                   | EmptyString => raw
                   | m => m
                   end
  else raw.






Definition back (w0 : World) (stage : string) (w : World) : Prop :=
  at_dir (cwd w0) (dirstack w0) w
  /\ exists l, continues w0 l w
               /\ In (Called (ShellPushd stage) None) l
               /\ In (Called ShellPopd None) l.


(** ** Sample runs *)

Module Sample.

Definition world0 : World := mkWorld [] "/repo" [] false false.

(** Collaborators that never reject. *)
Definition quiet : Env :=
  mkEnv (fun _ _ => None) (fun _ _ => "") (fun _ _ => true).

Definition pkg : NpmOptions :=
  mkNpmOptions (Some "my-package") None None false true None None false.

Definition private_pkg : NpmOptions :=
  mkNpmOptions (Some "my-package") None None true true None None false.

Definition otp_error : Err :=
  mkErr Foreign "This operation requires a one-time password.".

(** A registry that asks for the one-time password 123456, which the
    user types when prompted. *)
Definition otp_registry : Env :=
  mkEnv
    (fun _ c =>
       match c with
       | ShellRun command =>
           if Js.startsWith "npm publish" command
              && negb (Js.includes "--otp 123456" command)
           then Some otp_error else None
       | _ => None
       end)
    (fun _ c =>
       match c with
       | PromptShow otpPrompt => "123456"
       | _ => ""
       end)
    (fun _ _ => true).

Definition no_scripts : Scripts := mkScripts None None None None None.

Definition git_all : GitOptions := mkGitOptions true true true true.

Definition no_github : GitHubOptions := mkGitHubOptions false None None.

Definition no_gitlab : GitLabOptions := mkGitLabOptions false None.

Definition no_dist : DistOptions :=
  mkDistOptions None ".stage" no_scripts git_all no_github no_gitlab pkg.

Definition opts : Options :=
  mkOptions "my-package" (Some "patch") (Some ["package.json"]) no_scripts git_all
    no_github no_gitlab pkg no_dist.

Definition unattended : Config := mkConfig false opts.

(** A repository at 1.0.0 released as 1.0.1; no call is rejected. *)
Definition happy : Env :=
  mkEnv
    (fun _ _ => None)
    (fun _ c =>
       match c with
       | VersionGet => "1.0.1"
       | VersionLatest => "1.0.0"
       | ChangelogGenerate => "* More file"
       | ProcessUptime => "1"
       | Inspect e => toString e ++ Js.EOL ++ "    at Process.ChildProcess._handle.onexit"
       | _ => ""
       end)
    (fun _ c =>
       match c with
       | VersionIsRecommendation _ | VersionIsPreRelease => false
       | GitHubIsReleased _ | GitLabIsReleased _ => false
       | _ => true
       end).

(** A dirty working directory, no GitHub token and an invalid increment,
    all at once. *)
Definition all_wrong : Env :=
  mkEnv
    (fun _ c =>
       match c with
       | GitValidate => Some newGitCleanWorkingDirError
       | GitHubValidate => Some (newTokenError "GitHub" "GITHUB_TOKEN")
       | VersionBump _ | VersionValidate => Some newInvalidVersionError
       | _ => None
       end)
    (text happy) (truth happy).

(** A clean working directory, but no GitHub token and an invalid
    increment. *)
Definition no_token : Env :=
  mkEnv
    (fun _ c =>
       match c with
       | GitHubValidate => Some (newTokenError "GitHub" "GITHUB_TOKEN")
       | VersionBump _ | VersionValidate => Some newInvalidVersionError
       | _ => None
       end)
    (text happy) (truth happy).

Definition crash : Err := mkErr Foreign "spawn git ENOENT".

(** The commit fails with an error that is not a [ReleaseItError]. *)
Definition commit_crashes : Env :=
  mkEnv
    (fun _ c =>
       match c with
       | GitCommit Primary => Some crash
       | _ => None
       end)
    (text happy) (truth happy).



Definition interactive : Config := mkConfig true opts.

Definition gh_clients : ClientSet :=
  mkClientSet Primary git_all (mkGitHubOptions true None (Some ["file"])) no_gitlab
    pkg no_scripts.

Definition gh_no_assets : ClientSet :=
  mkClientSet Primary git_all (mkGitHubOptions true None None) no_gitlab pkg
    no_scripts.

Definition gh_assets_only : ClientSet :=
  mkClientSet Primary git_all (mkGitHubOptions false None (Some ["file"])) no_gitlab
    pkg no_scripts.

(** A private package whose options carry no name. *)
Definition private_nameless : NpmOptions :=
  mkNpmOptions None None None true true None None false.

Definition unpublished : NpmOptions :=
  mkNpmOptions (Some "my-package") None None false false None None false.


Definition dist_repo_options : DistOptions :=
  mkDistOptions (Some "git@example.org:my-package.git#dist") ".stage" no_scripts
    git_all no_github no_gitlab pkg.

(** A distribution repository is configured. *)
Definition with_dist : Config :=
  mkConfig false
    (mkOptions "my-package" (Some "patch") (Some ["package.json"]) no_scripts git_all
       no_github no_gitlab unpublished dist_repo_options).

Definition nothing_to_commit : Err := mkErr GitCommitError "nothing to commit".

(** The commit in the distribution repository fails. *)
Definition dist_commit_fails : Env :=
  mkEnv
    (fun _ c =>
       match c with
       | GitCommit Dist => Some nothing_to_commit
       | _ => None
       end)
    (text happy) (truth happy).

(** The registry does not answer the ping. *)
Definition registry_down : Env :=
  mkEnv
    (fun _ c =>
       match c with
       | ShellRun "npm ping" => Some (mkErr Foreign "ETIMEDOUT")
       | _ => None
       end)
    (text happy) (truth happy).

(** The registry answers, but nobody is logged in. *)
Definition logged_out : Env :=
  mkEnv
    (fun _ c =>
       match c with
       | ShellRun "npm whoami" => Some (mkErr Foreign "ENEEDAUTH")
       | _ => None
       end)
    (text happy) (truth happy).

Definition forbidden : Err := mkErr Foreign "403 Forbidden".

(** The registry refuses the publish for a reason other than the OTP. *)
Definition registry_forbids : Env :=
  mkEnv
    (fun _ c =>
       match c with
       | ShellRun command =>
           if Js.startsWith "npm publish" command then Some forbidden else None
       | _ => None
       end)
    (text otp_registry) (truth happy).

(** The registry rejects every one-time password. *)
Definition always_rejects : Env :=
  mkEnv
    (fun _ c =>
       match c with
       | ShellRun _ => Some otp_error
       | _ => None
       end)
    (text otp_registry) (truth happy).

Definition verbose_logger : Logger.Logger := Logger.mkLogger false true false.

(** Nothing is enabled. *)
Definition idle : ClientSet :=
  mkClientSet Primary (mkGitOptions false false false true) no_github no_gitlab
    unpublished no_scripts.

(** Every hook is configured, with a distribution repository. *)
Definition hooked : Config :=
  mkConfig false
    (mkOptions "my-package" (Some "patch") None
       (mkScripts (Some "echo beforeStart") (Some "echo beforeBump")
          (Some "echo afterBump") (Some "echo beforeStage") (Some "echo afterRelease"))
       git_all no_github no_gitlab unpublished
       (mkDistOptions (Some "git@example.org:my-package.git#dist") ".stage"
          (mkScripts None None None (Some "echo dist beforeStage")
             (Some "echo dist afterRelease"))
          git_all no_github no_gitlab pkg)).


(** Nothing is rejected, and the user declines every confirmation. *)
Definition declining : Env :=
  mkEnv
    (fun _ _ => None)
    (text happy)
    (fun _ c =>
       match c with
       | PromptShow _ => false
       | VersionIsRecommendation _ | VersionIsPreRelease => false
       | GitHubIsReleased _ | GitLabIsReleased _ => false
       | _ => true
       end).

End Sample.

(** * Properties *)

(** ** The dist-tag *)

Lemma truthy_prerelease_some v l : Semver.prerelease v = Some l -> Js.truthy (Some v) = true.
Proof.
  destruct v as [|c r]; [|reflexivity].
  vm_compute. discriminate.
Qed.

(** C6: the effective dist-tag is the supplied tag, ['latest'] when none
    was supplied, unless the release is a pre-release, in which case it is
    the first prerelease identifier of the version. *)
Theorem getTag_effective :
  forall (tag : option string) (version : option string),
    Npm.getTag tag version false = Js.default "latest" tag
    /\ (forall v id ids,
          version = Some v ->
          Semver.prerelease v = Some (id :: ids) ->
          Npm.getTag tag version true = id).
Proof.
  intros tag version. split.
  - reflexivity.
  - intros v id ids -> Hpre.
    unfold Npm.getTag.
    rewrite (truthy_prerelease_some _ _ Hpre). simpl.
    rewrite Hpre. reflexivity.
Qed.

Lemma getTag_effective_witness :
  Semver.prerelease "1.1.0-alpha.0" = Some ["alpha"; "0"]
  /\ Npm.getTag None (Some "1.1.0-alpha.0") true = "alpha".
Proof.
  split.
  - vm_compute. reflexivity.
  - apply (proj2 (getTag_effective None (Some "1.1.0-alpha.0"))
             "1.1.0-alpha.0" "alpha" ["0"]).
    + reflexivity.
    + vm_compute. reflexivity.
Defined.

(** C10: for a pre-release whose version has no prerelease identifier, or
    with no version at all, the dist-tag is the supplied tag, ['latest']
    when none was supplied; the resolution is a total function and cannot
    fail. *)
Theorem getTag_fallback :
  forall (tag : option string) (version : option string),
    match version with
    | Some v => Semver.prerelease v = None
    | None => True
    end ->
    Npm.getTag tag version true = Js.default "latest" tag.
Proof.
  intros tag [v|] H; unfold Npm.getTag; simpl.
  - destruct v as [|c r]; [reflexivity|].
    simpl. rewrite H. reflexivity.
  - reflexivity.
Qed.

Lemma getTag_fallback_witness :
  Semver.prerelease "1.1.0" = None
  /\ Npm.getTag (Some "next") (Some "1.1.0") true = "next"
  /\ Npm.getTag None None true = "latest".
Proof.
  split; [vm_compute; reflexivity|]. split.
  - apply (getTag_fallback (Some "next") (Some "1.1.0")). vm_compute. reflexivity.
  - apply (getTag_fallback None None). exact I.
Defined.

(** ** Publishing *)

(** C5, as amended: publishing a private package whose options carry a
    name is skipped with a warning and resolves; the shell is not run and
    nothing else changes. *)
Theorem publish_private_skipped :
  forall env self (opts : NpmOptions) fuel tag version isPreRelease otp otpCallback w,
    npm_name opts <> None ->
    npm_private opts = true ->
    Npm.publish env self opts (S fuel) tag version isPreRelease otp otpCallback w
    = (emit (Console Stdout "WARNING Skip publish: package is private.") w, Resolved tt).
Proof.
  intros env self opts fuel tag version isPreRelease otp otpCallback w Hname Hprivate.
  simpl. destruct (npm_name opts); [|contradiction].
  rewrite Hprivate. reflexivity.
Qed.

(** C5 as stated fails: [publish] calls [name.startsWith] before it looks
    at [private], so for a private package whose options carry no name it
    throws a [TypeError]; nothing is logged. *)
Lemma publish_private_nameless_throws :
  npm_private Sample.private_nameless = true
  /\ Npm.publish Sample.quiet Primary Sample.private_nameless 1 None (Some "1.0.1") false
       None None Sample.world0
     = (Sample.world0,
        Rejected (mkErr TypeError "Cannot read property 'startsWith' of undefined")).
Proof. split; reflexivity. Qed.

Lemma askOtp_supplies env w :
  throws env (trace w) (PromptShow otpPrompt) = None ->
  supplies (Tasks.askOtp env) (text env (trace w) (PromptShow otpPrompt)) w
    (emit (Called (PromptShow otpPrompt) None) w).
Proof.
  intros H task. unfold Tasks.askOtp, Prompt.ask, bind, call_text.
  rewrite H. reflexivity.
Qed.

(** C1: when the publish command fails with the one-time-password
    signature and the OTP callback supplies a fresh password, the
    invocation is exactly the retry with that password and the same tag,
    version and pre-release flag, so it succeeds when the retried command
    succeeds; without a callback the error is thrown again unchanged and
    the shell is not run a second time.  The command is run for options
    that carry a name, which [publish] reads first. *)
Theorem publish_otp_retry :
  forall env self (opts : NpmOptions) fuel tag version isPreRelease otp e w,
    let tag' := match tag with Some _ => tag | None => npm_tag opts end in
    let otp' := match otp with Some _ => otp | None => npm_otp opts end in
    let failed :=
      emit (Called (ShellRun (Npm.publishCommand opts tag' version isPreRelease otp'))
              (Some e)) w in
    let warned :=
      if Js.is_some otp'
      then emit (Console Stdout "WARNING The provided OTP is incorrect or has expired.") failed
      else failed in
    npm_name opts <> None ->
    npm_private opts = false ->
    throws env (trace w)
      (ShellRun (Npm.publishCommand opts tag' version isPreRelease otp')) = Some e ->
    Js.includes "one-time pass" (toString e) = true ->
    (forall callback fresh w2,
        supplies callback fresh warned w2 ->
        let retry := ShellRun (Npm.publishCommand opts tag' version isPreRelease (Some fresh)) in
        Npm.publish env self opts (S (S fuel)) tag version isPreRelease otp (Some callback) w
        = Npm.publish env self opts (S fuel) tag' version isPreRelease (Some fresh)
            (Some callback) w2
        /\ (throws env (trace w2) retry = None ->
            Npm.publish env self opts (S (S fuel)) tag version isPreRelease otp
              (Some callback) w
            = (mark_published self (emit (Called retry None) w2), Resolved tt)))
    /\ Npm.publish env self opts (S fuel) tag version isPreRelease otp None w
       = (warned, Rejected e).
Proof.
  intros env self opts fuel tag version isPreRelease otp e w tag' otp' failed warned
         Hname Hprivate Hthrows Hotp.
  destruct (npm_name opts) as [name|] eqn:Hnamed; [clear Hname|contradiction].
  assert (Htag : match tag' with Some _ => tag' | None => npm_tag opts end = tag').
  { subst tag'. destruct tag; [reflexivity|]. destruct (npm_tag opts); reflexivity. }
  split.
  - intros callback fresh w2 Hsup retry.
    assert (Hstep :
      Npm.publish env self opts (S (S fuel)) tag version isPreRelease otp (Some callback) w
      = Npm.publish env self opts (S fuel) tag' version isPreRelease (Some fresh)
          (Some callback) w2).
    { cbn [Npm.publish]. rewrite Hnamed, Hprivate.
      unfold try_catch at 1. unfold bind at 1. unfold call at 1.
      fold tag' otp'. rewrite Hthrows. rewrite Hotp.
      unfold bind at 1. unfold when, Logger.warn, Logger.log, console, noop, ret.
      fold failed.
      subst warned. revert Hsup.
      destruct (Js.is_some otp'); intros Hsup; rewrite (Hsup _); reflexivity. }
    split; [exact Hstep|].
    intros Hretry. rewrite Hstep.
    cbn [Npm.publish]. rewrite Hnamed, Hprivate. rewrite Htag.
    unfold try_catch, bind, call. fold retry. rewrite Hretry. reflexivity.
  - cbn [Npm.publish]. rewrite Hnamed, Hprivate.
    unfold try_catch at 1. unfold bind at 1. unfold call at 1.
    fold tag' otp'. rewrite Hthrows. rewrite Hotp.
    unfold bind, when, Logger.warn, Logger.log, console, noop, ret, throw.
    subst warned failed. destruct (Js.is_some otp'); reflexivity.
Qed.

Lemma publish_private_skipped_witness :
  npm_private Sample.private_pkg = true
  /\ Npm.publish Sample.quiet Primary Sample.private_pkg 1 None (Some "1.0.1") false
       None None Sample.world0
     = (mkWorld [Console Stdout "WARNING Skip publish: package is private."]
          "/repo" [] false false, Resolved tt).
Proof.
  split; [reflexivity|].
  apply (publish_private_skipped Sample.quiet Primary Sample.private_pkg 0 None
           (Some "1.0.1") false None None Sample.world0).
  - discriminate.
  - reflexivity.
Defined.

Lemma publish_otp_retry_witness :
  Npm.publish Sample.otp_registry Primary Sample.pkg 2 None (Some "1.0.1") false None
    (Some (Tasks.askOtp Sample.otp_registry)) Sample.world0
  = (mkWorld
       [Called (ShellRun "npm publish . --tag latest   ") (Some Sample.otp_error);
        Called (PromptShow otpPrompt) None;
        Called (ShellRun "npm publish . --tag latest  --otp 123456 ") None]
       "/repo" [] true false, Resolved tt)
  /\ Npm.publish Sample.otp_registry Primary Sample.pkg 1 None (Some "1.0.1") false None
       None Sample.world0
     = (mkWorld
          [Called (ShellRun "npm publish . --tag latest   ") (Some Sample.otp_error)]
          "/repo" [] false false, Rejected Sample.otp_error).
Proof.
  destruct (publish_otp_retry Sample.otp_registry Primary Sample.pkg 0 None
              (Some "1.0.1") false None Sample.otp_error Sample.world0
              ltac:(discriminate) eq_refl eq_refl eq_refl) as [Hretry Hnone].
  split.
  - destruct (Hretry (Tasks.askOtp Sample.otp_registry) "123456"
                (mkWorld
                   [Called (ShellRun "npm publish . --tag latest   ")
                      (Some Sample.otp_error);
                    Called (PromptShow otpPrompt) None]
                   "/repo" [] false false)
                (fun task => eq_refl)) as [_ Hok].
    exact (Hok eq_refl).
  - exact Hnone.
Defined.

(** ** A program logic for promises *)

Section Logic.

Variable env : Env.

Lemma preserves_ret {A} I (a : A) : preserves I (ret a).
Proof. intros w w' r HI H. inversion H; subst. exact HI. Qed.

Lemma preserves_throw {A} I e : preserves I (@throw A e).
Proof. intros w w' r HI H. inversion H; subst. exact HI. Qed.

Lemma preserves_pending {A} I : preserves I (@pending A).
Proof. intros w w' r HI H. inversion H; subst. exact HI. Qed.

Lemma preserves_bind {A B} I (m : M A) (f : A -> M B) :
  preserves I m -> (forall a, preserves I (f a)) -> preserves I (bind m f).
Proof.
  intros Hm Hf w w' r HI H. unfold bind in H.
  destruct (m w) as [w1 [a|e|]] eqn:E.
  - exact (Hf a w1 w' r (Hm _ _ _ HI E) H).
  - inversion H; subst. exact (Hm _ _ _ HI E).
  - inversion H; subst. exact (Hm _ _ _ HI E).
Qed.

Lemma preserves_try_catch {A} I (m : M A) handler :
  preserves I m -> (forall e, preserves I (handler e)) ->
  preserves I (try_catch m handler).
Proof.
  intros Hm Hh w w' r HI H. unfold try_catch in H.
  destruct (m w) as [w1 [a|e|]] eqn:E.
  - inversion H; subst. exact (Hm _ _ _ HI E).
  - exact (Hh e w1 w' r (Hm _ _ _ HI E) H).
  - inversion H; subst. exact (Hm _ _ _ HI E).
Qed.

Lemma preserves_settles {A} I (m : M A) : preserves I m -> preserves I (settles m).
Proof.
  intros Hm w w' r HI H. unfold settles in H.
  destruct (m w) as [w1 [a|e|]] eqn:E; inversion H; subst; exact (Hm _ _ _ HI E).
Qed.

Lemma preserves_when I (b : bool) m : preserves I m -> preserves I (when b m).
Proof. intros Hm. destruct b; [exact Hm | apply preserves_ret]. Qed.

Lemma preserves_noop I : preserves I noop.
Proof. apply preserves_ret. Qed.

Section Events.

Variable allowed : Event -> bool.
Variable I : World -> Prop.
Hypothesis Hadmits : admits allowed I.

Lemma preserves_call c :
  (forall f, allowed (Called c f) = true) -> preserves I (call env c).
Proof.
  intros Hc w w' r HI H. unfold call in H.
  destruct (throws env (trace w) c); inversion H; subst;
    apply Hadmits; auto.
Qed.

Lemma preserves_call_text c :
  (forall f, allowed (Called c f) = true) -> preserves I (call_text env c).
Proof.
  intros Hc w w' r HI H. unfold call_text in H.
  destruct (throws env (trace w) c); inversion H; subst;
    apply Hadmits; auto.
Qed.

Lemma preserves_call_truthy c :
  (forall f, allowed (Called c f) = true) -> preserves I (call_truthy env c).
Proof.
  intros Hc w w' r HI H. unfold call_truthy in H.
  destruct (throws env (trace w) c); inversion H; subst;
    apply Hadmits; auto.
Qed.

Lemma preserves_notify c :
  allowed (Called c None) = true -> preserves I (notify c).
Proof.
  intros Hc w w' r HI H. inversion H; subst. apply Hadmits; auto.
Qed.

Lemma preserves_console s line :
  allowed (Console s line) = true -> preserves I (console s line).
Proof.
  intros Hc w w' r HI H. inversion H; subst. apply Hadmits; auto.
Qed.

End Events.

Lemma preserves_read_text I c : preserves I (read_text env c).
Proof. intros w w' r HI H. inversion H; subst. exact HI. Qed.

Lemma preserves_read_truthy I c : preserves I (read_truthy env c).
Proof. intros w w' r HI H. inversion H; subst. exact HI. Qed.

Lemma preserves_read_world {A} I (f : World -> A) :
  preserves I (fun w => (w, Resolved (f w))).
Proof. intros w w' r HI H. inversion H; subst. exact HI. Qed.

Lemma hoare_bind {A B} P (m : M A) (f : A -> M B) Q R X :
  hoare P m Q X -> (forall a, hoare (Q a) (f a) R X) -> hoare P (bind m f) R X.
Proof.
  intros Hm Hf w w' r HP H. unfold bind in H.
  destruct (m w) as [w1 [a|e|]] eqn:E.
  - exact (Hf a w1 w' r (Hm _ _ _ HP E) H).
  - inversion H; subst. exact (Hm _ _ _ HP E).
  - inversion H; subst. exact (Hm _ _ _ HP E).
Qed.

Lemma hoare_ret {A} (P : World -> Prop) (a : A) (Q : A -> World -> Prop) X :
  (forall w, P w -> Q a w) -> hoare P (ret a) Q X.
Proof. intros HQ w w' r HP H. inversion H; subst. auto. Qed.

Lemma hoare_weaken {A} (P P' : World -> Prop) (m : M A) (Q Q' : A -> World -> Prop)
    (X X' : World -> Prop) :
  hoare P' m Q' X' ->
  (forall w, P w -> P' w) -> (forall a w, Q' a w -> Q a w) -> (forall w, X' w -> X w) ->
  hoare P m Q X.
Proof.
  intros Hm HP HQ HX w w' r Hw H.
  specialize (Hm w w' r (HP _ Hw) H). destruct r; auto.
Qed.

End Logic.

(** One step of a proof that a promise keeps an invariant: the rule of the
    head construct; calls look for [admits _ _] among the hypotheses. *)
Ltac pres_step :=
  match goal with
  | |- preserves _ (bind _ _) => apply preserves_bind; [|intro]
  | |- preserves _ (ret _) => apply preserves_ret
  | |- preserves _ noop => apply preserves_noop
  | |- preserves _ (throw _) => apply preserves_throw
  | |- preserves _ pending => apply preserves_pending
  | |- preserves _ (when _ _) => apply preserves_when
  | |- preserves _ (settles _) => apply preserves_settles
  | |- preserves _ (try_catch _ _) => apply preserves_try_catch; [|intro]
  | |- preserves _ (call _ _) =>
      eapply preserves_call; [eassumption | intro; reflexivity]
  | |- preserves _ (call_text _ _) =>
      eapply preserves_call_text; [eassumption | intro; reflexivity]
  | |- preserves _ (call_truthy _ _) =>
      eapply preserves_call_truthy; [eassumption | intro; reflexivity]
  | |- preserves _ (notify _) =>
      eapply preserves_notify; [eassumption | reflexivity]
  | |- preserves _ (console _ _) =>
      eapply preserves_console; [eassumption | reflexivity]
  | |- preserves _ (Logger.log _) => unfold Logger.log
  | |- preserves _ (Logger.warn _) => unfold Logger.warn
  | |- preserves _ (Logger.error _) => unfold Logger.error
  | |- preserves _ (read_text _ _) => apply preserves_read_text
  | |- preserves _ (read_truthy _ _) => apply preserves_read_truthy
  | |- preserves _ (fun w => (w, Resolved _)) => apply preserves_read_world
  | |- preserves _ (Spinner.show _) => unfold Spinner.show; cbn [enabled task prompt]
  | |- preserves _ (Prompt.show _ _) => unfold Prompt.show; cbn [enabled task prompt]
  | |- preserves _ (Prompt.ask _ _ _) => unfold Prompt.ask
  | |- preserves _ (Tasks.hook _ _) => unfold Tasks.hook, Tasks.run
  | |- preserves _ (Tasks.run _ _) => unfold Tasks.run
  | |- preserves _ (Tasks.step _ _ _) => unfold Tasks.step
  | |- preserves _ (if ?b then _ else _) => destruct b
  | |- preserves _ (match ?o with _ => _ end) => destruct o
  end.

Ltac pres := repeat pres_step.

(** ** Publishing keeps an invariant that admits what it records *)

Section Invariant.

Variable env : Env.
Variable allowed : Event -> bool.
Variable I : World -> Prop.
Hypothesis Hadmits : admits allowed I.
Hypothesis Hshell : forall command f, allowed (Called (ShellRun command) f) = true.
Hypothesis Hconsole : forall s line, allowed (Console s line) = true.
Hypothesis Hprompt : forall f, allowed (Called (PromptShow otpPrompt) f) = true.

Lemma askOtp_preserves task :
  (forall otp, preserves I (task otp)) -> preserves I (Tasks.askOtp env task).
Proof.
  intros Htask. unfold Tasks.askOtp, Prompt.ask.
  apply preserves_bind; [|intro; apply Htask].
  eapply preserves_call_text; [exact Hadmits|exact Hprompt].
Qed.

Lemma publish_preserves self opts fuel :
  ignores_published I ->
  forall tag version isPreRelease otp otpCallback,
    match otpCallback with
    | Some callback =>
        forall task, (forall o, preserves I (task o)) -> preserves I (callback task)
    | None => True
    end ->
    preserves I (Npm.publish env self opts fuel tag version isPreRelease otp otpCallback).
Proof.
  intros Hpub. induction fuel as [|fuel IH]; intros tag version isPreRelease otp cb Hcb.
  - apply preserves_pending.
  - cbn [Npm.publish].
    destruct (npm_name opts); [|apply preserves_throw].
    destruct (npm_private opts).
    { apply preserves_bind; [|intro; apply preserves_noop].
      eapply preserves_console; [exact Hadmits|apply Hconsole]. }
    apply preserves_try_catch.
    + apply preserves_bind.
      * eapply preserves_call; [exact Hadmits|apply Hshell].
      * intros _ w w' r HI H. inversion H; subst. apply Hpub. exact HI.
    + intros err. destruct (Js.includes "one-time pass" (toString err));
        [|apply preserves_throw].
      apply preserves_bind.
      * apply preserves_when. eapply preserves_console; [exact Hadmits|apply Hconsole].
      * intros _. destruct cb as [callback|]; [|apply preserves_throw].
        apply Hcb. intros o. apply IH. exact Hcb.
Qed.

End Invariant.

(** ** Orderings of the trace *)

Lemma trace_mark_published t w : trace (mark_published t w) = trace w.
Proof. destruct t; reflexivity. Qed.

Lemma trace_leave_dir w : trace (leave_dir w) = trace w.
Proof. unfold leave_dir. destruct (dirstack w); reflexivity. Qed.

Lemma continues_emit w0 l w ev :
  continues w0 l w -> continues w0 (l ++ [ev]) (emit ev w).
Proof. unfold continues. intros H. simpl. rewrite H, app_assoc. reflexivity. Qed.

Section Gate.

Variable env : Env.
Variable guarded : Call -> bool.
Variable required : list Event.
Variable w0 : World.

Lemma unguarded_gated l :
  (forall ev, In ev l -> unguarded guarded ev = true) -> gated guarded required l.
Proof.
  intros H l1 c f l2 -> Hg.
  assert (Hin : In (Called c f) (l1 ++ Called c f :: l2)).
  { apply in_or_app. right. left. reflexivity. }
  apply H in Hin. simpl in Hin. rewrite Hg in Hin. discriminate.
Qed.

Lemma gated_snoc l ev :
  gated guarded required l ->
  (unguarded guarded ev = true \/ incl required l) ->
  gated guarded required (l ++ [ev]).
Proof.
  intros Hg Hev l1 c f l2 Heq Hc.
  induction l2 as [|x l2 _] using rev_ind.
  - apply app_inj_tail in Heq. destruct Heq as [-> ->].
    destruct Hev as [Hh|Hv]; [|exact Hv].
    simpl in Hh. rewrite Hc in Hh. discriminate.
  - change (l1 ++ Called c f :: l2 ++ [x])%list
      with (l1 ++ (Called c f :: l2) ++ [x])%list in Heq.
    rewrite app_assoc in Heq. apply app_inj_tail in Heq. destruct Heq as [-> _].
    exact (Hg l1 c f l2 eq_refl Hc).
Qed.

Lemma waiting_start : waiting guarded w0 [] w0.
Proof.
  exists []. split; [unfold continues; rewrite app_nil_r; reflexivity|].
  split; intros ev [].
Qed.

Lemma waiting_gate_kept seen w :
  waiting guarded w0 seen w -> gate_kept guarded required w0 w.
Proof.
  intros [l [Hc [Hh _]]]. exists l. split; [exact Hc|].
  apply unguarded_gated. exact Hh.
Qed.

Lemma waiting_emit seen w ev :
  unguarded guarded ev = true ->
  waiting guarded w0 seen w -> waiting guarded w0 (ev :: seen) (emit ev w).
Proof.
  intros Hev [l [Hc [Hh Hs]]]. exists (l ++ [ev])%list. split; [|split].
  - apply continues_emit. exact Hc.
  - intros ev' Hin. apply in_app_or in Hin. destruct Hin as [Hin|[<-|[]]]; auto.
  - intros ev' [<-|Hin].
    + apply in_or_app. right. left. reflexivity.
    + apply in_or_app. left. apply Hs. exact Hin.
Qed.

Lemma waiting_weaken seen seen' w :
  incl seen' seen -> waiting guarded w0 seen w -> waiting guarded w0 seen' w.
Proof.
  intros Hincl [l [Hc [Hh Hs]]]. exists l. repeat split; auto.
  intros ev Hin. apply Hs, Hincl, Hin.
Qed.

Lemma waiting_admits seen : admits (unguarded guarded) (waiting guarded w0 seen).
Proof.
  intros ev w Hev Hv. eapply waiting_weaken; [|apply waiting_emit; eassumption].
  intros ev' Hin. right. exact Hin.
Qed.

Lemma waiting_done seen w :
  incl required seen -> waiting guarded w0 seen w -> gate_open guarded required w0 w.
Proof.
  intros Hincl [l [Hc [Hh Hs]]]. exists l. repeat split; auto.
  - apply unguarded_gated. exact Hh.
  - intros ev Hin. apply Hs, Hincl, Hin.
Qed.

Lemma gate_open_kept w :
  gate_open guarded required w0 w -> gate_kept guarded required w0 w.
Proof. intros [l [Hc [Hg _]]]. exists l. auto. Qed.

Lemma gate_open_admits : admits any_event (gate_open guarded required w0).
Proof.
  intros ev w _ [l [Hc [Hg Hv]]]. exists (l ++ [ev])%list. split; [|split].
  - apply continues_emit. exact Hc.
  - apply gated_snoc; auto.
  - intros ev' Hin. apply in_or_app. left. apply Hv, Hin.
Qed.

Lemma gate_open_ignores_published : ignores_published (gate_open guarded required w0).
Proof.
  intros t w [l [Hc H]]. exists l. split; [|exact H].
  unfold continues in *. rewrite trace_mark_published. exact Hc.
Qed.

Lemma gate_open_ignores_dirs : ignores_dirs (gate_open guarded required w0).
Proof.
  intros w [l [Hc H]]. split; [intros d|]; exists l; (split; [|exact H]);
    unfold continues in *; [|rewrite trace_leave_dir]; exact Hc.
Qed.

Lemma waiting_ignores_published seen : ignores_published (waiting guarded w0 seen).
Proof.
  intros t w [l [Hc H]]. exists l. split; [|exact H].
  unfold continues in *. rewrite trace_mark_published. exact Hc.
Qed.

Lemma waiting_ignores_dirs seen : ignores_dirs (waiting guarded w0 seen).
Proof.
  intros w [l [Hc H]]. split; [intros d|]; exists l; (split; [|exact H]);
    unfold continues in *; [|rewrite trace_leave_dir]; exact Hc.
Qed.

Lemma gate_kept_admits : admits (unguarded guarded) (gate_kept guarded required w0).
Proof.
  intros ev w Hev [l [Hc Hg]]. exists (l ++ [ev])%list. split.
  - apply continues_emit. exact Hc.
  - apply gated_snoc; auto.
Qed.

Lemma hoare_throw {A} (P : World -> Prop) e (Q : A -> World -> Prop) (X : World -> Prop) :
  (forall w, P w -> X w) -> hoare P (throw e) Q X.
Proof. intros HX w w' r HP H. inversion H; subst. auto. Qed.

(** A call that need not wait is recorded among the events seen. *)
Lemma call_waiting c seen :
  guarded c = false ->
  hoare (waiting guarded w0 seen) (call env c)
    (fun _ => waiting guarded w0 (Called c None :: seen))
    (gate_kept guarded required w0).
Proof.
  intros Hc w w' r Hv H. unfold call in H.
  destruct (throws env (trace w) c) as [e|]; inversion H; subst.
  - eapply waiting_gate_kept. apply waiting_emit; [|exact Hv].
    simpl. rewrite Hc. reflexivity.
  - apply waiting_emit; [|exact Hv]. simpl. rewrite Hc. reflexivity.
Qed.

Lemma settles_call_waiting c seen :
  guarded c = false ->
  hoare (waiting guarded w0 seen) (settles (call env c))
    (fun up w => if up then waiting guarded w0 (Called c None :: seen) w
                 else waiting guarded w0 seen w)
    (gate_kept guarded required w0).
Proof.
  intros Hc w w' r Hv H. unfold settles, call in H.
  destruct (throws env (trace w) c) as [e|]; inversion H; subst.
  - eapply waiting_weaken; [|apply waiting_emit; [|exact Hv]].
    + intros ev Hin. right. exact Hin.
    + simpl. rewrite Hc. reflexivity.
  - apply waiting_emit; [|exact Hv]. simpl. rewrite Hc. reflexivity.
Qed.

End Gate.

(** ** Validation comes first *)

Lemma validateAll_opens_gate env config w0 :
  hoare (waiting is_mutating w0 []) (Tasks.validateAll env config)
    (fun _ => gate_open is_mutating (validations (options config)) w0)
    (gate_kept is_mutating (validations (options config)) w0).
Proof.
  unfold Tasks.validateAll.
  eapply hoare_bind; [apply call_waiting; reflexivity|intros []; cbv beta].
  eapply hoare_bind; [apply call_waiting; reflexivity|intros []; cbv beta].
  eapply hoare_bind; [apply call_waiting; reflexivity|intros []; cbv beta].
  eapply hoare_bind; [apply call_waiting; reflexivity|intros []; cbv beta].
  unfold Npm.validate.
  destruct (npm_publish (npm (options config))) eqn:Hpublish; cbn [negb].
  - unfold Npm.isRegistryUp, Npm.isAuthenticated.
    eapply hoare_bind; [apply settles_call_waiting; reflexivity|intros up].
    destruct up; cbn [negb].
    + eapply hoare_bind; [apply settles_call_waiting; reflexivity|intros auth].
      destruct auth; cbn [negb].
      * apply hoare_ret. intros w. apply waiting_done.
        unfold validations. rewrite Hpublish.
        intros ev Hin. simpl in Hin |- *. tauto.
      * apply hoare_throw. intros w. apply waiting_gate_kept.
    + apply hoare_throw. intros w. apply waiting_gate_kept.
  - apply hoare_ret. intros w. apply waiting_done.
    unfold validations. rewrite Hpublish.
    intros ev Hin. simpl in Hin |- *. tauto.
Qed.

Section Dirs.

Variable env : Env.
Variable I : World -> Prop.
Hypothesis Hadmits : admits any_event I.
Hypothesis Hdirs : ignores_dirs I.

Lemma pushd_preserves dir : preserves I (pushd env dir).
Proof.
  unfold pushd. pres.
  intros w w' r HI H. inversion H; subst. apply Hdirs. exact HI.
Qed.

Lemma popd_preserves : preserves I (popd env).
Proof.
  unfold popd. pres.
  intros w w' r HI H. inversion H; subst. apply Hdirs. exact HI.
Qed.

End Dirs.

(** The rules of [pres_step], and below them the parts of [tasks.js]. *)
Ltac pres_task :=
  match goal with
  | |- preserves _ (Npm.publish _ _ _ _ _ _ _ _ _) =>
      eapply publish_preserves;
      [eassumption | intros; reflexivity | intros; reflexivity | eassumption | ]
  | |- True => exact Logic.I
  | |- forall task, _ -> preserves _ (Tasks.askOtp _ task) =>
      intros ? ?; eapply askOtp_preserves; [eassumption | intros; reflexivity | eassumption]
  | |- preserves _ (pushd _ _) => eapply pushd_preserves; eassumption
  | |- preserves _ (popd _) => eapply popd_preserves; eassumption
  | |- preserves _ (Tasks.askOtp _ _) =>
      eapply askOtp_preserves; [eassumption | intros; reflexivity | intro]
  | |- preserves _ (Npm.validate _ _) =>
      unfold Npm.validate, Npm.isRegistryUp, Npm.isAuthenticated
  | |- preserves _ (Tasks.validateAll _ _) => unfold Tasks.validateAll
  | |- preserves _ (Tasks.generateAndPreviewChangelog _) =>
      unfold Tasks.generateAndPreviewChangelog
  | |- preserves _ (Tasks.releaseGit _ _ _) => unfold Tasks.releaseGit
  | |- preserves _ (Tasks.releaseGitHub _ _ _ _ _ _) => unfold Tasks.releaseGitHub
  | |- preserves _ (Tasks.githubSteps _ _ _ _ _ _) =>
      unfold Tasks.githubSteps, Tasks.ghRelease, Tasks.ghUploadAssets
  | |- preserves _ (Tasks.releaseGitLab _ _ _ _ _) => unfold Tasks.releaseGitLab
  | |- preserves _ (Tasks.releaseNpm _ _ _ _ _ _) => unfold Tasks.releaseNpm
  | |- preserves _ (Tasks.logUrls _ _) => unfold Tasks.logUrls
  | |- preserves _ (Tasks.wrapUp _ _) => unfold Tasks.wrapUp
  | |- preserves _ (Tasks.release _ _ _ _ _ _ _) => unfold Tasks.release
  | |- preserves _ (Tasks.releaseDist _ _ _ _) => unfold Tasks.releaseDist
  | |- preserves _ (Tasks.prepare _ _) => unfold Tasks.prepare
  | _ => pres_step
  end.

Ltac pres_tasks := repeat pres_task.

Lemma hoare_invariant {A} (I X : World -> Prop) (m : M A) :
  preserves I m -> (forall w, I w -> X w) -> hoare I m (fun _ => I) X.
Proof.
  intros Hm HX w w' r HI H. specialize (Hm w w' r HI H). destruct r; auto.
Qed.

Lemma bind_resolved {A B} (m : M A) (f : A -> M B) w w' a :
  m w = (w', Resolved a) -> bind m f w = f a w'.
Proof. intros H. unfold bind. rewrite H. reflexivity. Qed.

Lemma bind_rejected {A B} (m : M A) (f : A -> M B) w w' e :
  m w = (w', Rejected e) -> bind m f w = (w', Rejected e).
Proof. intros H. unfold bind. rewrite H. reflexivity. Qed.

(** The error log of the [catch] clause. *)
Lemma handler_run env e w :
  Tasks.handler env e w
  = (emit (Console Stderr (errorLine env e w))
       (emit (Called (MetricsTrackException e) None) w),
     Rejected e).
Proof.
  unfold Tasks.handler, errorLine, bind, notify, read_text, Logger.error,
    console, throw.
  destruct (instanceofReleaseItError e); [destruct (message e)|]; reflexivity.
Qed.

Section Pipeline.

Variable env : Env.
Variable config : Config.
Variable fuel : nat.

Lemma pipeline_keeps_gate w0 :
  hoare (waiting is_mutating w0 []) (Tasks.pipeline env config fuel)
    (fun _ => gate_kept is_mutating (validations (options config)) w0)
    (gate_kept is_mutating (validations (options config)) w0).
Proof.
  set (required := validations (options config)).
  pose proof (gate_open_admits is_mutating required w0) as Hadmits.
  pose proof (gate_open_ignores_published is_mutating required w0) as Hpub.
  pose proof (gate_open_ignores_dirs is_mutating required w0) as Hdirs.
  unfold Tasks.pipeline.
  eapply hoare_bind with (Q := fun _ => gate_open is_mutating required w0).
  - unfold Tasks.prepare.
    pose proof (waiting_admits is_mutating w0 []) as Hval.
    eapply hoare_bind with (Q := fun _ => waiting is_mutating w0 []).
    { apply hoare_invariant; [pres|apply waiting_gate_kept]. }
    intros [].
    eapply hoare_bind with (Q := fun _ => waiting is_mutating w0 []).
    { apply hoare_invariant; [pres|apply waiting_gate_kept]. }
    intros [].
    eapply hoare_bind.
    { apply validateAll_opens_gate. }
    intros []. clear Hval.
    apply hoare_invariant; [|apply gate_open_kept].
    pres_tasks.
  - intros p.
    eapply hoare_weaken;
      [apply hoare_invariant with (I := gate_open is_mutating required w0)
             (X := gate_kept is_mutating required w0);
       [pres_tasks|apply gate_open_kept]
      |auto|intros a w; apply gate_open_kept|auto].
Qed.

End Pipeline.

Lemma prepare_validation_rejected env config w :
  exists w1, forall e w2,
    Tasks.validateAll env config w1 = (w2, Rejected e) ->
    Tasks.prepare env config w = (w2, Rejected e).
Proof.
  unfold Tasks.prepare.
  match goal with
  | |- context [bind (when ?b ?m) _] =>
      assert (Hwarn : exists w1, when b m w = (w1, Resolved tt))
  end.
  { unfold when, Logger.warn, Logger.log, console, noop, ret.
    destruct (Js.truthy _); eexists; reflexivity. }
  destruct Hwarn as [w1 Hwarn].
  exists (emit (Called (MetricsTrackEvent "start") None) w1).
  intros e w2 H.
  erewrite bind_resolved by exact Hwarn.
  erewrite bind_resolved by reflexivity.
  apply bind_rejected. exact H.
Qed.

(** C2: in every run the mutating calls (bump, stage, commit, tag, push,
    release, publish) come after all the validations have resolved; and
    the first violated precondition wins: a rejected git validation (a
    dirty working directory) is the error of the run whatever the tokens
    and the increment, and with the git and distribution validations
    passing, a rejected GitHub validation (an absent token) is the error
    of the run whatever the increment. *)
Theorem validation_first :
  forall env config fuel w,
    (exists l,
        continues w l (fst (Tasks.runTasks env config fuel w))
        /\ gated is_mutating (validations (options config)) l)
    /\ (forall e,
          (forall tr, throws env tr GitValidate = Some e) ->
          snd (Tasks.runTasks env config fuel w) = Rejected e)
    /\ (forall e,
          (forall tr, throws env tr GitValidate = None) ->
          (forall tr, throws env tr GitDistValidate = None) ->
          (forall tr, throws env tr GitHubValidate = Some e) ->
          snd (Tasks.runTasks env config fuel w) = Rejected e).
Proof.
  intros env config fuel w.
  split; [|split].
  - destruct (Tasks.runTasks env config fuel w) as [w' r] eqn:E. simpl.
    unfold Tasks.runTasks, try_catch in E.
    pose proof (waiting_start is_mutating w) as Hstart.
    pose proof (pipeline_keeps_gate env config fuel w) as Hp.
    destruct (Tasks.pipeline env config fuel w) as [w1 [a|e|]] eqn:Ep;
      specialize (Hp w w1 _ Hstart Ep); simpl in Hp.
    + inversion E; subst. exact Hp.
    + rewrite handler_run in E. inversion E; subst.
      apply gate_kept_admits; [reflexivity|].
      apply gate_kept_admits; [reflexivity|]. exact Hp.
    + inversion E; subst. exact Hp.
  - intros e Hgit.
    destruct (prepare_validation_rejected env config w) as [w1 Hprep].
    unfold Tasks.runTasks, try_catch, Tasks.pipeline.
    erewrite bind_rejected.
    + rewrite handler_run. reflexivity.
    + apply Hprep. unfold Tasks.validateAll. apply bind_rejected.
      unfold call. rewrite Hgit. reflexivity.
  - intros e Hgit Hdist Hgh.
    destruct (prepare_validation_rejected env config w) as [w1 Hprep].
    unfold Tasks.runTasks, try_catch, Tasks.pipeline.
    erewrite bind_rejected.
    + rewrite handler_run. reflexivity.
    + apply Hprep. unfold Tasks.validateAll.
      erewrite bind_resolved; [|unfold call; rewrite Hgit; reflexivity].
      erewrite bind_resolved; [|unfold call; rewrite Hdist; reflexivity].
      apply bind_rejected. unfold call. rewrite Hgh. reflexivity.
Qed.

Lemma validation_first_witness :
  (exists l,
      continues Sample.world0 l
        (fst (Tasks.runTasks Sample.happy Sample.unattended 1 Sample.world0))
      /\ gated is_mutating (validations Sample.opts) l)
  /\ snd (Tasks.runTasks Sample.all_wrong Sample.unattended 1 Sample.world0)
     = Rejected newGitCleanWorkingDirError
  /\ snd (Tasks.runTasks Sample.no_token Sample.unattended 1 Sample.world0)
     = Rejected (newTokenError "GitHub" "GITHUB_TOKEN").
Proof.
  split; [|split].
  - exact (proj1 (validation_first Sample.happy Sample.unattended 1 Sample.world0)).
  - apply (proj1 (proj2 (validation_first Sample.all_wrong Sample.unattended 1
                           Sample.world0))).
    intros tr. reflexivity.
  - apply (proj2 (proj2 (validation_first Sample.no_token Sample.unattended 1
                           Sample.world0)));
      intros tr; reflexivity.
Defined.

(** ** The changelog and the bump *)



(** The next statement keeps the invariant [I]; [leave] shows that [I]
    implies the condition on the exits. *)
Ltac keep I leave :=
  eapply hoare_bind with (Q := fun _ => I);
  [ apply hoare_invariant; [pres_tasks | leave] | intro ].

Section Changelog.

Variable env : Env.
Variable config : Config.
Variable w0 : World.










End Changelog.

Section Run.

Variable env : Env.
Variable config : Config.
Variable fuel : nat.

(** What follows [prepare] in the [try] block keeps an invariant that
    admits any event. *)
Lemma pipeline_after_prepare (I : World -> Prop) w w1 p :
  admits any_event I -> ignores_published I -> ignores_dirs I ->
  Tasks.prepare env config w = (w1, Resolved p) ->
  I w1 ->
  I (fst (Tasks.pipeline env config fuel w)).
Proof.
  intros Hadmits Hpub Hdirs Hprep HI.
  unfold Tasks.pipeline. rewrite (bind_resolved _ _ _ _ _ Hprep).
  match goal with
  | |- I (fst (?m w1)) =>
      assert (Hrest : preserves I m);
      [|destruct (m w1) as [wr r] eqn:E; exact (Hrest _ _ _ HI E)]
  end.
  pres_tasks.
Qed.

Lemma pipeline_prepare_fails w w1 r :
  Tasks.prepare env config w = (w1, r) ->
  (forall p, r <> Resolved p) ->
  fst (Tasks.pipeline env config fuel w) = w1.
Proof.
  intros Hprep Hr. unfold Tasks.pipeline, bind. rewrite Hprep.
  destruct r as [p|e|]; [exfalso; exact (Hr p eq_refl)|reflexivity|reflexivity].
Qed.

Lemma pipeline_hoare (P I X : World -> Prop) :
  admits any_event I -> ignores_published I -> ignores_dirs I ->
  (forall w, I w -> X w) ->
  hoare P (Tasks.prepare env config) (fun _ => I) X ->
  forall w, P w -> X (fst (Tasks.pipeline env config fuel w)).
Proof.
  intros Hadmits Hpub Hdirs HX Hprep w HP.
  destruct (Tasks.prepare env config w) as [w1 r] eqn:E.
  pose proof (Hprep w w1 r HP E) as H1.
  destruct r as [p|e|].
  - apply HX. eapply pipeline_after_prepare; eauto.
  - rewrite (pipeline_prepare_fails w w1 _ E); [exact H1|discriminate].
  - rewrite (pipeline_prepare_fails w w1 _ E); [exact H1|discriminate].
Qed.

(** The [catch] clause adds a metrics report and an error line. *)
Lemma runTasks_keeps (X : World -> Prop) w :
  (forall e w, X w -> X (emit (Called (MetricsTrackException e) None) w)) ->
  (forall line w, X w -> X (emit (Console Stderr line) w)) ->
  X (fst (Tasks.pipeline env config fuel w)) ->
  X (fst (Tasks.runTasks env config fuel w)).
Proof.
  intros Hm Hc HX. unfold Tasks.runTasks, try_catch.
  destruct (Tasks.pipeline env config fuel w) as [w1 [a|e|]]; simpl in *; auto.
  rewrite handler_run. simpl. apply Hc, Hm, HX.
Qed.

Lemma runTasks_gate guarded required w :
  (forall e, guarded (MetricsTrackException e) = false) ->
  gate_kept guarded required w (fst (Tasks.pipeline env config fuel w)) ->
  gate_kept guarded required w (fst (Tasks.runTasks env config fuel w)).
Proof.
  intros Hg. apply runTasks_keeps.
  - intros e w1. apply gate_kept_admits. simpl. rewrite Hg. reflexivity.
  - intros line w1. apply gate_kept_admits. reflexivity.
Qed.


End Run.



(** ** The GitHub release and its assets *)

(** C7: interactively the release and the upload of its assets are one
    step under one confirmation.  With [github.release] off nothing is
    asked and nothing done, whatever [github.assets] says; otherwise the
    confirmation is asked once and, when it is given, the release is
    made, and the assets are uploaded next exactly when the release
    resolved to a truthy result.  Unattended they are two steps with their
    own toggles and no confirmation: the release is made when
    [github.release] is set, and once that step is over without an error
    the assets are uploaded when [github.assets] is set, whether or not a
    release was made and whatever it returned; with [github.assets] unset
    nothing is uploaded, even when the release ran and resolved. *)
Theorem github_release_and_assets :
  forall env config version isPreRelease changelog clients w,
    let t := target clients in
    let ask := PromptShow ghReleasePrompt in
    let release := GitHubRelease t version isPreRelease changelog in
    let upload := GitHubUploadAssets t in
    let steps := Tasks.githubSteps env config version isPreRelease changelog clients in
    let asked := emit (Called ask None) w in
    (isInteractive config = true ->
     let released := emit (Called release None) asked in
     (github_release (ghClient clients) = false -> steps w = (w, Resolved tt))
     /\ (github_release (ghClient clients) = true ->
         (forall e, throws env (trace w) ask = Some e ->
                    steps w = (emit (Called ask (Some e)) w, Rejected e))
         /\ (throws env (trace w) ask = None ->
             truth env (trace w) ask = false ->
             steps w = (asked, Resolved tt))
         /\ (throws env (trace w) ask = None ->
             truth env (trace w) ask = true ->
             (forall e, throws env (trace asked) release = Some e ->
                        steps w = (emit (Called release (Some e)) asked, Rejected e))
             /\ (throws env (trace asked) release = None ->
                 truth env (trace asked) release = false ->
                 steps w = (released, Resolved tt))
             /\ (throws env (trace asked) release = None ->
                 truth env (trace asked) release = true ->
                 steps w = call env upload released))))
    /\ (isInteractive config = false ->
        let released := emit (Called release None) w in
        (github_release (ghClient clients) = false ->
         (github_assets (ghClient clients) = None -> steps w = (w, Resolved tt))
         /\ (github_assets (ghClient clients) <> None -> steps w = call env upload w))
        /\ (github_release (ghClient clients) = true ->
            (forall e, throws env (trace w) release = Some e ->
                       steps w = (emit (Called release (Some e)) w, Rejected e))
            /\ (throws env (trace w) release = None ->
                (github_assets (ghClient clients) = None ->
                 steps w = (released, Resolved tt))
                /\ (github_assets (ghClient clients) <> None ->
                    steps w = call env upload released)))).
Proof.
  intros env config version isPreRelease changelog clients w t ask release upload steps
         asked.
  subst steps. unfold Tasks.githubSteps, Tasks.step, Tasks.ghRelease, Tasks.ghUploadAssets.
  fold t. fold release. fold upload.
  split.
  - intros Hint. rewrite Hint.
    unfold Prompt.show. cbn [enabled task prompt Js.default]. fold ask.
    split.
    + intros Hoff. rewrite Hoff. reflexivity.
    + intros Hon. rewrite Hon.
      split; [|split].
      * intros e Hask. unfold bind, call_truthy. rewrite Hask. reflexivity.
      * intros Hask Hno. unfold bind, call_truthy. rewrite Hask, Hno. reflexivity.
      * intros Hask Hyes. subst asked.
        split; [|split].
        -- intros e Hrelease. cbn [trace emit] in Hrelease.
           unfold bind, call_truthy. rewrite Hask, Hyes. cbn [trace emit].
           rewrite Hrelease. reflexivity.
        -- intros Hrelease Hfalsy. cbn [trace emit] in Hrelease, Hfalsy.
           unfold bind, call_truthy. rewrite Hask, Hyes. cbn [trace emit].
           rewrite Hrelease, Hfalsy. reflexivity.
        -- intros Hrelease Htruthy. cbn [trace emit] in Hrelease, Htruthy.
           unfold bind, call_truthy. rewrite Hask, Hyes. cbn [trace emit].
           rewrite Hrelease, Htruthy. reflexivity.
  - intros Hint. rewrite Hint.
    unfold Spinner.show. cbn [enabled task prompt Js.default].
    split.
    + intros Hoff. rewrite Hoff. split.
      * intros Hnone. rewrite Hnone. reflexivity.
      * intros Hsome. destruct (github_assets (ghClient clients)); [|contradiction].
        reflexivity.
    + intros Hon. rewrite Hon. split.
      * intros e Hrelease. unfold bind, call_truthy. rewrite Hrelease. reflexivity.
      * intros Hrelease. split.
        -- intros Hnone. rewrite Hnone. unfold bind, call_truthy, noop, ret.
           rewrite Hrelease. reflexivity.
        -- intros Hsome. destruct (github_assets (ghClient clients)); [|contradiction].
           unfold bind, call_truthy, noop, ret. rewrite Hrelease. reflexivity.
Qed.

Lemma github_release_and_assets_witness :
  Tasks.githubSteps Sample.happy Sample.interactive "1.0.1" false None Sample.gh_clients
    Sample.world0
  = (mkWorld
       [Called (PromptShow ghReleasePrompt) None;
        Called (GitHubRelease Primary "1.0.1" false None) None;
        Called (GitHubUploadAssets Primary) None]
       "/repo" [] false false, Resolved tt)
  /\ Tasks.githubSteps Sample.declining Sample.interactive "1.0.1" false None
       Sample.gh_clients Sample.world0
     = (mkWorld [Called (PromptShow ghReleasePrompt) None] "/repo" [] false false,
        Resolved tt)
  /\ Tasks.githubSteps Sample.happy Sample.unattended "1.0.1" false None
       Sample.gh_no_assets Sample.world0
     = (mkWorld [Called (GitHubRelease Primary "1.0.1" false None) None]
          "/repo" [] false false, Resolved tt)
  /\ Tasks.githubSteps Sample.happy Sample.unattended "1.0.1" false None
       Sample.gh_assets_only Sample.world0
     = (mkWorld [Called (GitHubUploadAssets Primary) None] "/repo" [] false false,
        Resolved tt).
Proof.
  split; [|split; [|split]].
  - destruct (github_release_and_assets Sample.happy Sample.interactive "1.0.1" false
                None Sample.gh_clients Sample.world0) as [Hinteractive _].
    destruct (Hinteractive eq_refl) as [_ Hon].
    destruct (Hon eq_refl) as [_ [_ Hconfirmed]].
    destruct (Hconfirmed eq_refl eq_refl) as [_ [_ Htruthy]].
    rewrite (Htruthy eq_refl eq_refl). reflexivity.
  - destruct (github_release_and_assets Sample.declining Sample.interactive "1.0.1"
                false None Sample.gh_clients Sample.world0) as [Hinteractive _].
    destruct (Hinteractive eq_refl) as [_ Hon].
    destruct (Hon eq_refl) as [_ [Hdeclined _]].
    exact (Hdeclined eq_refl eq_refl).
  - destruct (github_release_and_assets Sample.happy Sample.unattended "1.0.1" false
                None Sample.gh_no_assets Sample.world0) as [_ Hunattended].
    destruct (Hunattended eq_refl) as [_ Hon].
    destruct (Hon eq_refl) as [_ Hresolved].
    destruct (Hresolved eq_refl) as [Hskip _].
    exact (Hskip eq_refl).
  - destruct (github_release_and_assets Sample.happy Sample.unattended "1.0.1" false
                None Sample.gh_assets_only Sample.world0) as [_ Hunattended].
    destruct (Hunattended eq_refl) as [Hoff _].
    destruct (Hoff eq_refl) as [_ Hupload].
    rewrite Hupload; [reflexivity|discriminate].
Defined.

(** ** The [isPublished] flag *)

Lemma isPublished_emit ev w t : isPublished (emit ev w) t = isPublished w t.
Proof. destruct t; reflexivity. Qed.


Lemma continues_refl w : continues w [] w.
Proof. unfold continues. rewrite app_nil_r. reflexivity. Qed.

Lemma continues_trans w0 w1 w2 l1 l2 :
  continues w0 l1 w1 -> continues w1 l2 w2 -> continues w0 (l1 ++ l2) w2.
Proof. unfold continues. intros H1 H2. rewrite H2, H1, app_assoc. reflexivity. Qed.






(** ** The working directory and the distribution repository *)




Lemma at_dir_ignores_published dir stack : ignores_published (at_dir dir stack).
Proof. intros t w H. destruct t; exact H. Qed.


Section Phases.

Variable w0 : World.
Variable stage : string.






Lemma back_ignores_published : ignores_published (back w0 stage).
Proof.
  intros t w [Hat [l [Hc H]]]. split; [destruct t; exact Hat|].
  exists l. split; [|exact H].
  unfold continues in *. rewrite trace_mark_published. exact Hc.
Qed.





End Phases.

Section Distribution.

Variable env : Env.
Variable config : Config.
Variable fuel : nat.
Variable stage : string.
Hypothesis Hstage : dist_stageDir (dist (options config)) = stage.










End Distribution.

Lemma runTasks_resolved env config fuel w w' a :
  Tasks.runTasks env config fuel w = (w', Resolved a) ->
  Tasks.pipeline env config fuel w = (w', Resolved a).
Proof.
  intros H. unfold Tasks.runTasks, try_catch in H.
  destruct (Tasks.pipeline env config fuel w) as [w1 [a1|e|]] eqn:E.
  - exact H.
  - rewrite handler_run in H. discriminate.
  - discriminate.
Qed.




(** * More of the code *)

(** ** [npm.validate] *)

(** X1: [validate] runs no command when the client is not to publish;
    otherwise a failing ping is reported as the registry timeout, without
    asking who is logged in, a failing [npm whoami] as the authentication
    error, and it resolves after both commands otherwise.  The error of
    the shell is not the one thrown. *)
Theorem validate_outcomes :
  forall env opts w,
    let ping := ShellRun "npm ping" in
    let whoami := ShellRun "npm whoami" in
    (npm_publish opts = false -> Npm.validate env opts w = (w, Resolved tt))
    /\ (npm_publish opts = true ->
        forall e, throws env (trace w) ping = Some e ->
        Npm.validate env opts w
        = (emit (Called ping (Some e)) w, Rejected (newNpmTimeoutError 5000)))
    /\ (npm_publish opts = true ->
        throws env (trace w) ping = None ->
        forall e, throws env (trace w ++ [Called ping None]) whoami = Some e ->
        Npm.validate env opts w
        = (emit (Called whoami (Some e)) (emit (Called ping None) w),
           Rejected newNpmAuthError))
    /\ (npm_publish opts = true ->
        throws env (trace w) ping = None ->
        throws env (trace w ++ [Called ping None]) whoami = None ->
        Npm.validate env opts w
        = (emit (Called whoami None) (emit (Called ping None) w), Resolved tt)).
Proof.
  intros env opts w ping whoami.
  unfold Npm.validate, Npm.isRegistryUp, Npm.isAuthenticated.
  repeat split.
  - intros ->. reflexivity.
  - intros -> e He. cbn [negb]. unfold bind, settles, call. fold ping.
    rewrite He. reflexivity.
  - intros -> Hping e He. cbn [negb]. unfold bind, settles, call. fold ping.
    rewrite Hping. cbn [negb trace emit]. fold whoami. rewrite He. reflexivity.
  - intros -> Hping Hwho. cbn [negb]. unfold bind, settles, call. fold ping.
    rewrite Hping. cbn [negb trace emit]. fold whoami. rewrite Hwho. reflexivity.
Qed.

Lemma validate_outcomes_witness :
  Npm.validate Sample.happy Sample.unpublished Sample.world0
  = (Sample.world0, Resolved tt)
  /\ Npm.validate Sample.registry_down Sample.pkg Sample.world0
     = (mkWorld [Called (ShellRun "npm ping") (Some (mkErr Foreign "ETIMEDOUT"))]
          "/repo" [] false false,
        Rejected (newNpmTimeoutError 5000))
  /\ Npm.validate Sample.logged_out Sample.pkg Sample.world0
     = (mkWorld [Called (ShellRun "npm ping") None;
                 Called (ShellRun "npm whoami") (Some (mkErr Foreign "ENEEDAUTH"))]
          "/repo" [] false false,
        Rejected newNpmAuthError)
  /\ Npm.validate Sample.happy Sample.pkg Sample.world0
     = (mkWorld [Called (ShellRun "npm ping") None; Called (ShellRun "npm whoami") None]
          "/repo" [] false false,
        Resolved tt).
Proof.
  split; [|split; [|split]].
  - apply (proj1 (validate_outcomes Sample.happy Sample.unpublished Sample.world0)).
    reflexivity.
  - apply (proj1 (proj2 (validate_outcomes Sample.registry_down Sample.pkg
                           Sample.world0)) eq_refl (mkErr Foreign "ETIMEDOUT")).
    reflexivity.
  - apply (proj1 (proj2 (proj2 (validate_outcomes Sample.logged_out Sample.pkg
                                  Sample.world0)))
             eq_refl eq_refl (mkErr Foreign "ENEEDAUTH")).
    reflexivity.
  - apply (proj2 (proj2 (proj2 (validate_outcomes Sample.happy Sample.pkg
                                  Sample.world0))));
      reflexivity.
Defined.

(** ** [npm.publish]: errors and retries *)

(** X2: an error of the publish command (run for options that carry a
    name) that does not carry the one-time-password signature is thrown
    again as it is: the callback, if any, is not asked, nothing is logged
    and no flag changes. *)
Theorem publish_other_error_rethrown :
  forall env self (opts : NpmOptions) fuel tag version isPreRelease otp otpCallback e w,
    let tag' := match tag with Some _ => tag | None => npm_tag opts end in
    let otp' := match otp with Some _ => otp | None => npm_otp opts end in
    let command := ShellRun (Npm.publishCommand opts tag' version isPreRelease otp') in
    npm_name opts <> None ->
    npm_private opts = false ->
    throws env (trace w) command = Some e ->
    Js.includes "one-time pass" (toString e) = false ->
    Npm.publish env self opts (S fuel) tag version isPreRelease otp otpCallback w
    = (emit (Called command (Some e)) w, Rejected e).
Proof.
  intros env self opts fuel tag version isPreRelease otp otpCallback e w tag' otp'
         command Hname Hprivate Hthrows Hother.
  cbn [Npm.publish]. destruct (npm_name opts); [|contradiction]. rewrite Hprivate.
  unfold try_catch, bind, call. fold tag' otp' command.
  rewrite Hthrows, Hother. reflexivity.
Qed.

Lemma publish_other_error_rethrown_witness :
  Npm.publish Sample.registry_forbids Primary Sample.pkg 5 None (Some "1.0.1") false
    (Some "123456") (Some (Tasks.askOtp Sample.registry_forbids)) Sample.world0
  = (mkWorld
       [Called (ShellRun "npm publish . --tag latest  --otp 123456 ")
          (Some Sample.forbidden)]
       "/repo" [] false false,
     Rejected Sample.forbidden).
Proof.
  apply (publish_other_error_rethrown Sample.registry_forbids Primary Sample.pkg 4 None
           (Some "1.0.1") false (Some "123456")
           (Some (Tasks.askOtp Sample.registry_forbids)) Sample.forbidden
           Sample.world0);
    first [reflexivity | discriminate].
Defined.

Lemma attempts_app l1 l2 : attempts (l1 ++ l2) = attempts l1 + attempts l2.
Proof. unfold attempts. rewrite filter_app, length_app. reflexivity. Qed.

(** X3: the retry has no bound of its own: while the registry rejects the
    one-time passwords and the callback keeps supplying them, [publish]
    (for options that carry a name) does not settle, and every invocation
    of the chain runs the publish command once more; no flag changes. *)
Theorem publish_retries_without_bound :
  forall env self (opts : NpmOptions) e,
    npm_name opts <> None ->
    npm_private opts = false ->
    (forall tr command, throws env tr (ShellRun command) = Some e) ->
    Js.includes "one-time pass" (toString e) = true ->
    (forall tr, throws env tr (PromptShow otpPrompt) = None) ->
    forall fuel tag version isPreRelease otp w,
    exists w' l,
      Npm.publish env self opts fuel tag version isPreRelease otp
        (Some (Tasks.askOtp env)) w = (w', Pending)
      /\ continues w l w'
      /\ attempts l = fuel
      /\ (forall t, isPublished w' t = isPublished w t).
Proof.
  intros env self opts e Hname Hprivate Hshell Hotp Hprompt.
  destruct (npm_name opts) as [name|] eqn:Hnamed; [clear Hname|contradiction].
  induction fuel as [|fuel IH]; intros tag version isPreRelease otp w.
  - exists w, []. split; [reflexivity|]. split; [apply continues_refl|].
    split; [reflexivity|auto].
  - cbn [Npm.publish]. rewrite Hnamed, Hprivate.
    unfold try_catch at 1. unfold bind at 1. unfold call at 1.
    rewrite Hshell, Hotp.
    unfold bind at 1.
    match goal with
    | |- context [when ?b ?m ?w1] =>
        assert (Hwarn : exists w1' l1,
                   when b m w1 = (w1', Resolved tt)
                   /\ continues w l1 w1'
                   /\ attempts l1 = 1
                   /\ forall t, isPublished w1' t = isPublished w t)
    end.
    { unfold when, Logger.warn, Logger.log, console, noop, ret.
      match goal with |- context [if ?b then _ else _] => destruct b end.
      - do 2 eexists. split; [reflexivity|].
        split; [apply continues_emit, continues_emit, continues_refl|].
        split; [reflexivity|]. intros t. rewrite !isPublished_emit. reflexivity.
      - do 2 eexists. split; [reflexivity|].
        split; [apply continues_emit, continues_refl|].
        split; [reflexivity|]. intros t. rewrite !isPublished_emit. reflexivity. }
    destruct Hwarn as [w1 [l1 [Hwarn [Hl1 [Hn1 Hflag1]]]]].
    rewrite Hwarn.
    unfold Tasks.askOtp, Prompt.ask. unfold bind at 1. unfold call_text at 1.
    rewrite Hprompt.
    match goal with
    | |- context [Npm.publish env self opts fuel ?tg ?v ?p ?o ?cb ?w2] =>
        destruct (IH tg v p o w2) as [w' [l2 [Hrun [Hl2 [Hn2 Hflag2]]]]]
    end.
    exists w', ((l1 ++ [Called (PromptShow otpPrompt) None]) ++ l2)%list.
    split; [exact Hrun|].
    split; [eapply continues_trans; [apply continues_emit; exact Hl1|exact Hl2]|].
    split.
    + rewrite !attempts_app, Hn1, Hn2. reflexivity.
    + intros t. rewrite Hflag2, isPublished_emit. apply Hflag1.
Qed.

Lemma publish_retries_without_bound_witness :
  exists w' l,
    Npm.publish Sample.always_rejects Primary Sample.pkg 7 None (Some "1.0.1") false None
      (Some (Tasks.askOtp Sample.always_rejects)) Sample.world0 = (w', Pending)
    /\ continues Sample.world0 l w'
    /\ attempts l = 7
    /\ (forall t, isPublished w' t = isPublished Sample.world0 t).
Proof.
  apply (publish_retries_without_bound Sample.always_rejects Primary Sample.pkg
           Sample.otp_error ltac:(discriminate) eq_refl (fun _ _ => eq_refl) eq_refl
           (fun _ => eq_refl)
           7 None (Some "1.0.1") false None Sample.world0).
Defined.

(** ** lib/log.js *)

Lemma strings_app args1 args2 :
  Logger.strings (args1 ++ args2) = (Logger.strings args1 ++ Logger.strings args2)%list.
Proof. unfold Logger.strings. apply flat_map_app. Qed.

(** X4: [exec] is silent unless the logger is verbose or in a dry run.
    Otherwise it logs one line: the arguments that are strings, in order,
    behind a mark that is [$] when the last argument is [true] and [!]
    when it is [false] or a string; the boolean and whatever else is no
    string are not printed. *)
Theorem exec_line :
  forall logger args w,
    (Logger.isVerbose logger || Logger.isDryRun logger = false ->
     Logger.exec logger args w = (w, Resolved tt))
    /\ (Logger.isVerbose logger || Logger.isDryRun logger = true ->
        (forall executed,
            Logger.exec logger (args ++ [Logger.Bool executed]) w
            = (emit (Console Stdout
                       (String.concat " "
                          ((if executed then "$" else "!") :: Logger.strings args))) w,
               Resolved tt))
        /\ (forall s,
               Logger.exec logger (args ++ [Logger.Str s]) w
               = (emit (Console Stdout
                          (String.concat " " ("!" :: Logger.strings args ++ [s]))) w,
                  Resolved tt))).
Proof.
  intros logger args w. split.
  - intros Hquiet. unfold Logger.exec. rewrite Hquiet. reflexivity.
  - intros Hloud. split.
    + intros executed. unfold Logger.exec. rewrite Hloud.
      rewrite last_last, strings_app. cbn [Logger.strings flat_map app].
      rewrite app_nil_r. destruct executed; reflexivity.
    + intros s. unfold Logger.exec. rewrite Hloud.
      rewrite last_last, strings_app. reflexivity.
Qed.

Lemma exec_line_witness :
  Logger.exec (Logger.mkLogger false false false)
    [Logger.Str "npm publish"] Sample.world0 = (Sample.world0, Resolved tt)
  /\ Logger.exec Sample.verbose_logger
       [Logger.Str "git"; Logger.Other; Logger.Str "push"; Logger.Bool true]
       Sample.world0
     = (mkWorld [Console Stdout "$ git push"] "/repo" [] false false, Resolved tt)
  /\ Logger.exec Sample.verbose_logger [Logger.Str "npm ping"] Sample.world0
     = (mkWorld [Console Stdout "! npm ping"] "/repo" [] false false, Resolved tt).
Proof.
  split; [|split].
  - apply (proj1 (exec_line (Logger.mkLogger false false false)
                    [Logger.Str "npm publish"] Sample.world0)).
    reflexivity.
  - apply (proj1 (proj2 (exec_line Sample.verbose_logger
                           [Logger.Str "git"; Logger.Other; Logger.Str "push"]
                           Sample.world0) eq_refl) true).
  - apply (proj2 (proj2 (exec_line Sample.verbose_logger [] Sample.world0) eq_refl)
             "npm ping").
Defined.

(** ** lib/errors.js *)

Lemma with_message_message e :
  with_message e ->
  instanceofReleaseItError e = true /\ exists c rest, message e = String c rest.
Proof.
  intros H. destruct H; (split; [reflexivity|]); cbn; eauto.
Qed.

(** X5: every error whose constructor fixes its message is a
    [ReleaseItError] with a message that is not empty, so the top-level
    handler logs that message behind [ERROR], never the raw error. *)
Theorem fixed_message_errors_logged :
  forall env e w,
    with_message e ->
    instanceofReleaseItError e = true
    /\ message e <> ""
    /\ Tasks.handler env e w
       = (emit (Console Stderr ("ERROR " ++ message e))
            (emit (Called (MetricsTrackException e) None) w),
          Rejected e).
Proof.
  intros env e w H. destruct (with_message_message e H) as [Hknown [c [rest Hm]]].
  split; [exact Hknown|]. split; [rewrite Hm; discriminate|].
  rewrite handler_run. unfold errorLine. rewrite Hknown, Hm. reflexivity.
Qed.

Lemma fixed_message_errors_logged_witness :
  Tasks.handler Sample.quiet (newDistRepoStageDirError "..") Sample.world0
  = (emit (Console Stderr ("ERROR " ++ message (newDistRepoStageDirError "..")))
       (emit (Called (MetricsTrackException (newDistRepoStageDirError "..")) None)
          Sample.world0),
     Rejected (newDistRepoStageDirError "..")).
Proof.
  apply (proj2 (proj2 (fixed_message_errors_logged Sample.quiet
                         (newDistRepoStageDirError "..")
                         Sample.world0 (wm_DistRepoStageDir "..")))).
Defined.

(** ** The release sequence *)

(** X6: with every step disabled and no [afterRelease] script, the release
    sequence calls no client, asks nothing and runs no command, in either
    mode: all that is left of it is the logging of the links. *)
Theorem release_all_disabled :
  forall env config fuel version isPreRelease changelog clients,
    git_commit (gitClient clients) = false ->
    git_tag (gitClient clients) = false ->
    git_push (gitClient clients) = false ->
    github_release (ghClient clients) = false ->
    github_assets (ghClient clients) = None ->
    gitlab_release (glClient clients) = false ->
    npm_publish (npmClient clients) = false ->
    Js.truthy (afterRelease (clientScripts clients)) = false ->
    forall w,
      Tasks.release env config fuel version isPreRelease changelog clients w
      = Tasks.logUrls env clients w.
Proof.
  intros env config fuel version isPreRelease changelog clients
         Hcommit Htag Hpush Hgh Hassets Hgl Hnpm Hafter w.
  unfold Tasks.release, Tasks.releaseGit, Tasks.releaseGitHub, Tasks.githubSteps,
    Tasks.releaseGitLab, Tasks.releaseNpm, Tasks.wrapUp, Tasks.hook, Tasks.step,
    Prompt.show, Spinner.show.
  cbn [enabled task prompt].
  rewrite Hcommit, Htag, Hpush, Hgh, Hassets, Hgl, Hnpm, Hafter.
  cbn [Js.default Js.is_some andb when].
  destruct (isInteractive config); reflexivity.
Qed.

Lemma release_all_disabled_witness :
  Tasks.release Sample.all_wrong Sample.interactive 1 "1.0.1" false None Sample.idle
    Sample.world0
  = Tasks.logUrls Sample.all_wrong Sample.idle Sample.world0.
Proof.
  apply (release_all_disabled Sample.all_wrong Sample.interactive 1 "1.0.1" false None
           Sample.idle);
    reflexivity.
Defined.

(** ** Unattended runs *)

Lemma pushd_admitted env allowed (I : World -> Prop) dir :
  admits allowed I -> ignores_dirs I ->
  (forall f, allowed (Called (ShellPushd dir) f) = true) ->
  preserves I (pushd env dir).
Proof.
  intros Hadmits Hdirs Hallowed. unfold pushd.
  apply preserves_bind; [eapply preserves_call; eassumption|].
  intros _ w w' r HI H. inversion H; subst. apply Hdirs. exact HI.
Qed.

Lemma popd_admitted env allowed (I : World -> Prop) :
  admits allowed I -> ignores_dirs I ->
  (forall f, allowed (Called ShellPopd f) = true) ->
  preserves I (popd env).
Proof.
  intros Hadmits Hdirs Hallowed. unfold popd.
  apply preserves_bind; [eapply preserves_call; eassumption|].
  intros _ w w' r HI H. inversion H; subst. apply Hdirs. exact HI.
Qed.

(** The rules of [pres_task], with the shell's directory moves for an
    invariant that admits them. *)
Ltac pres_more :=
  match goal with
  | |- preserves _ (pushd _ _) =>
      eapply pushd_admitted; [eassumption | eassumption | intro; reflexivity]
  | |- preserves _ (popd _) =>
      eapply popd_admitted; [eassumption | eassumption | intro; reflexivity]
  | _ => pres_task
  end.

(** The same for a configuration whose mode is known. *)
Ltac pres_mode :=
  repeat first
    [ progress cbn [isInteractive andb]
    | match goal with
      | |- context [when false ?m] => change (when false m) with noop
      end
    | pres_more ].

Lemma pipeline_unattended_asks_nothing env o fuel w0 :
  preserves (waiting is_prompt w0 []) (Tasks.pipeline env (mkConfig false o) fuel).
Proof.
  pose proof (waiting_admits is_prompt w0 []) as Hadmits.
  pose proof (waiting_ignores_published is_prompt w0 []) as Hpub.
  pose proof (waiting_ignores_dirs is_prompt w0 []) as Hdirs.
  unfold Tasks.pipeline. pres_mode.
Qed.

(** X7: an unattended run never shows a prompt, whatever happens: not for
    the version, not to confirm a step, not for a one-time password. *)
Theorem unattended_never_prompts :
  forall env config fuel w,
    isInteractive config = false ->
    exists l,
      continues w l (fst (Tasks.runTasks env config fuel w))
      /\ forall p f, ~ In (Called (PromptShow p) f) l.
Proof.
  intros env [mode o] fuel w Hmode. simpl in Hmode. subst mode.
  assert (H : waiting is_prompt w [] (fst (Tasks.runTasks env (mkConfig false o) fuel w))).
  { apply runTasks_keeps.
    - intros e w1. apply waiting_admits. reflexivity.
    - intros line w1. apply waiting_admits. reflexivity.
    - destruct (Tasks.pipeline env (mkConfig false o) fuel w) as [w1 r] eqn:E.
      exact (pipeline_unattended_asks_nothing env o fuel w w w1 r (waiting_start _ w) E). }
  destruct H as [l [Hl [Hun _]]]. exists l. split; [exact Hl|].
  intros p f Hin. apply Hun in Hin. discriminate.
Qed.

Lemma unattended_never_prompts_witness :
  exists l,
    continues Sample.world0 l
      (fst (Tasks.runTasks Sample.otp_registry Sample.unattended 3 Sample.world0))
    /\ forall p f, ~ In (Called (PromptShow p) f) l.
Proof.
  apply (unattended_never_prompts Sample.otp_registry Sample.unattended 3 Sample.world0).
  reflexivity.
Defined.

(** ** Without a distribution repository *)

(** X8: when no distribution repository is configured, a run makes no
    call that belongs to one (staging, entering or leaving a directory,
    the clients of the distribution repository), and it ends, however it
    ends, in the working directory it started in. *)
Theorem without_distribution :
  forall env config fuel w,
    Js.truthy (dist_repo (dist (options config))) = false ->
    let w' := fst (Tasks.runTasks env config fuel w) in
    (exists l,
        continues w l w'
        /\ forall c f, In (Called c f) l -> dist_call c = false)
    /\ cwd w' = cwd w
    /\ dirstack w' = dirstack w.
Proof.
  intros env config fuel w Hnone w'. subst w'.
  set (I := fun w1 : World =>
              waiting dist_call w [] w1 /\ at_dir (cwd w) (dirstack w) w1).
  assert (Hadmits : admits (unguarded dist_call) I).
  { intros ev w1 Hev [Hw Hd]. split; [apply waiting_admits; assumption|exact Hd]. }
  assert (Hpub : ignores_published I).
  { intros t w1 [Hw Hd]. split.
    - apply waiting_ignores_published. exact Hw.
    - apply at_dir_ignores_published. exact Hd. }
  assert (Hpipeline : preserves I (Tasks.pipeline env config fuel)).
  { unfold Tasks.pipeline.
    repeat first
      [ rewrite Hnone
      | match goal with
        | |- context [when false ?m] => change (when false m) with noop
        end
      | pres_task ]. }
  assert (H : I (fst (Tasks.runTasks env config fuel w))).
  { apply runTasks_keeps.
    - intros e w1. apply Hadmits. reflexivity.
    - intros line w1. apply Hadmits. reflexivity.
    - destruct (Tasks.pipeline env config fuel w) as [w1 r] eqn:E.
      apply (Hpipeline w w1 r); [|exact E].
      split; [apply waiting_start|split; reflexivity]. }
  destruct H as [[l [Hl [Hun _]]] [Hcwd Hstack]].
  split; [|split; assumption].
  exists l. split; [exact Hl|].
  intros c f Hin. apply Hun in Hin. simpl in Hin.
  apply negb_true_iff. exact Hin.
Qed.

Lemma without_distribution_witness :
  (exists l,
      continues Sample.world0 l
        (fst (Tasks.runTasks Sample.commit_crashes Sample.unattended 1 Sample.world0))
      /\ forall c f, In (Called c f) l -> dist_call c = false)
  /\ cwd (fst (Tasks.runTasks Sample.commit_crashes Sample.unattended 1 Sample.world0))
     = "/repo"
  /\ dirstack (fst (Tasks.runTasks Sample.commit_crashes Sample.unattended 1
                      Sample.world0)) = [].
Proof.
  apply (without_distribution Sample.commit_crashes Sample.unattended 1 Sample.world0).
  reflexivity.
Defined.

(** ** The version is settled before anything is changed *)

Section Version.

Variable env : Env.
Variable config : Config.
Variable w0 : World.

Lemma validateAll_waits required :
  hoare (waiting is_mutating w0 []) (Tasks.validateAll env config)
    (fun _ => waiting is_mutating w0 (validations (options config)))
    (gate_kept is_mutating required w0).
Proof.
  unfold Tasks.validateAll.
  eapply hoare_bind; [apply call_waiting; reflexivity|intros []; cbv beta].
  eapply hoare_bind; [apply call_waiting; reflexivity|intros []; cbv beta].
  eapply hoare_bind; [apply call_waiting; reflexivity|intros []; cbv beta].
  eapply hoare_bind; [apply call_waiting; reflexivity|intros []; cbv beta].
  unfold Npm.validate.
  destruct (npm_publish (npm (options config))) eqn:Hpublish; cbn [negb].
  - unfold Npm.isRegistryUp, Npm.isAuthenticated.
    eapply hoare_bind; [apply settles_call_waiting; reflexivity|intros up].
    destruct up; cbn [negb].
    + eapply hoare_bind; [apply settles_call_waiting; reflexivity|intros auth].
      destruct auth; cbn [negb].
      * apply hoare_ret. intros w. apply waiting_weaken.
        unfold validations. rewrite Hpublish.
        intros ev Hin. simpl in Hin |- *. tauto.
      * apply hoare_throw. intros w. apply waiting_gate_kept.
    + apply hoare_throw. intros w. apply waiting_gate_kept.
  - apply hoare_ret. intros w. apply waiting_weaken.
    unfold validations. rewrite Hpublish.
    intros ev Hin. simpl in Hin |- *. tauto.
Qed.

Lemma prepare_validates_version :
  hoare (waiting is_mutating w0 []) (Tasks.prepare env config)
    (fun _ => gate_open is_mutating (version_validated (options config)) w0)
    (gate_kept is_mutating (version_validated (options config)) w0).
Proof.
  set (required := version_validated (options config)).
  unfold Tasks.prepare.
  pose proof (waiting_admits is_mutating w0 []) as Hwait.
  do 2 (keep (waiting is_mutating w0 []) ltac:(apply waiting_gate_kept)).
  eapply hoare_bind; [apply validateAll_waits|intros []; cbv beta].
  clear Hwait.
  pose proof (waiting_admits is_mutating w0 (validations (options config))) as Hwait.
  keep (waiting is_mutating w0 (validations (options config)))
       ltac:(apply waiting_gate_kept).
  eapply hoare_bind; [apply call_waiting; reflexivity|intros []; cbv beta].
  eapply hoare_bind; [apply call_waiting; reflexivity|intros []; cbv beta].
  clear Hwait.
  match goal with
  | |- hoare (waiting _ _ ?seen) _ _ _ =>
      pose proof (waiting_admits is_mutating w0 seen) as Hwait;
      do 8 (keep (waiting is_mutating w0 seen) ltac:(apply waiting_gate_kept))
  end.
  eapply hoare_bind with (Q := fun _ => gate_open is_mutating required w0).
  { eapply hoare_weaken.
    - apply (call_waiting env is_mutating required w0 VersionValidate). reflexivity.
    - intros w H. exact H.
    - intros u w Hw. eapply waiting_done; [|exact Hw].
      subst required. unfold version_validated.
      intros ev Hin. apply in_app_or in Hin. simpl in Hin |- *. tauto.
    - intros w H. exact H. }
  intros []. clear Hwait.
  pose proof (gate_open_admits is_mutating required w0) as Hadmits.
  apply hoare_invariant; [|apply gate_open_kept].
  pres_tasks.
Qed.

End Version.

(** X9: in every run the mutating calls (bump, stage, commit, tag, push,
    release, publish) come after the version was settled: after the
    validations of the clients, the latest version was set, the increment
    applied and the resulting version validated, each without an error. *)
Theorem version_validated_first :
  forall env config fuel w,
    exists l,
      continues w l (fst (Tasks.runTasks env config fuel w))
      /\ gated is_mutating (version_validated (options config)) l.
Proof.
  intros env config fuel w.
  apply runTasks_gate; [reflexivity|].
  apply (pipeline_hoare env config fuel (waiting is_mutating w [])
           (gate_open is_mutating (version_validated (options config)) w)).
  - apply gate_open_admits.
  - apply gate_open_ignores_published.
  - apply gate_open_ignores_dirs.
  - apply gate_open_kept.
  - apply prepare_validates_version.
  - apply waiting_start.
Qed.

(** ** What the shell is handed, in order *)

Lemma templates_app l l' : templates (l ++ l') = (templates l ++ templates l')%list.
Proof. unfold templates. apply flat_map_app. Qed.

Lemma commands_app l l' : commands (l ++ l') = (commands l ++ commands l')%list.
Proof. unfold commands. apply flat_map_app. Qed.

Section Ran.

Variable env : Env.
Variable w0 : World.

Lemma ran_start project : project [] = [] -> ran project w0 [] w0.
Proof.
  intros H. exists []. split; [|exact H].
  unfold continues. rewrite app_nil_r. reflexivity.
Qed.

Lemma ran_templates_admits xs : admits (unguarded is_template) (ran templates w0 xs).
Proof.
  intros ev w Hev [l [Hc Hp]]. exists (l ++ [ev])%list. split.
  - apply continues_emit. exact Hc.
  - rewrite templates_app, Hp.
    destruct ev as [[] f|s line]; try discriminate Hev; apply app_nil_r.
Qed.

Lemma ran_commands_admits xs : admits (unguarded is_command) (ran commands w0 xs).
Proof.
  intros ev w Hev [l [Hc Hp]]. exists (l ++ [ev])%list. split.
  - apply continues_emit. exact Hc.
  - rewrite commands_app, Hp.
    destruct ev as [[] f|s line]; try discriminate Hev; apply app_nil_r.
Qed.

Lemma ran_ignores_published project xs : ignores_published (ran project w0 xs).
Proof.
  intros t w [l [Hc H]]. exists l. split; [|exact H].
  unfold continues in *. rewrite trace_mark_published. exact Hc.
Qed.

Lemma ran_ignores_dirs project xs : ignores_dirs (ran project w0 xs).
Proof.
  intros w [l [Hc H]]. split; [intros d|]; exists l; (split; [|exact H]);
    unfold continues in *; [|rewrite trace_leave_dir]; exact Hc.
Qed.

(** A command handed to [shell.runTemplateCommand] that resolves. *)
Lemma run_ran xs command :
  hoare (ran templates w0 xs) (Tasks.run env command)
    (fun _ => ran templates w0 (xs ++ [command])) (fun _ => True).
Proof.
  intros w w' r [l [Hc Hp]] H. unfold Tasks.run, call in H.
  destruct (throws env (trace w) (ShellRunTemplate command)); inversion H; subst;
    [exact I|].
  exists (l ++ [Called (ShellRunTemplate command) None])%list. split.
  - apply continues_emit. exact Hc.
  - rewrite templates_app. reflexivity.
Qed.

Lemma hook_ran xs script :
  hoare (ran templates w0 xs) (Tasks.hook env script)
    (fun _ => ran templates w0 (xs ++ configured script)) (fun _ => True).
Proof.
  unfold Tasks.hook, Spinner.show, configured. cbn [enabled task Js.default].
  destruct (Js.truthy script).
  - apply run_ran.
  - apply hoare_ret. intros w H. rewrite app_nil_r. exact H.
Qed.

(** A command handed to [shell.run] that resolves. *)
Lemma shell_ran xs command :
  hoare (ran commands w0 xs) (call env (ShellRun command))
    (fun _ => ran commands w0 (xs ++ [command])) (fun _ => True).
Proof.
  intros w w' r [l [Hc Hp]] H. unfold call in H.
  destruct (throws env (trace w) (ShellRun command)); inversion H; subst;
    [exact I|].
  exists (l ++ [Called (ShellRun command) None])%list. split.
  - apply continues_emit. exact Hc.
  - rewrite commands_app. reflexivity.
Qed.

End Ran.

(** The next statement hands the shell nothing that [project] reads. *)
Ltac ran_keep admitted :=
  match goal with
  | |- hoare (ran ?project ?w0 ?ys) (bind _ _) _ _ =>
      pose proof (admitted w0 ys) as Hadmits;
      pose proof (ran_ignores_published w0 project ys) as Hpub;
      pose proof (ran_ignores_dirs w0 project ys) as Hdirs;
      eapply hoare_bind with (Q := fun _ => ran project w0 ys);
      [ apply hoare_invariant; [solve [repeat pres_more] | auto] | intro ];
      clear Hadmits Hpub Hdirs
  end.

(** Neither does the last statement. *)
Ltac ran_last admitted :=
  match goal with
  | |- hoare (ran ?project ?w0 ?ys) _ _ _ =>
      pose proof (admitted w0 ys) as Hadmits;
      pose proof (ran_ignores_published w0 project ys) as Hpub;
      pose proof (ran_ignores_dirs w0 project ys) as Hdirs;
      eapply hoare_weaken;
      [ apply hoare_invariant with (I := ran project w0 ys) (X := fun _ => True);
        [solve [repeat pres_more] | auto]
      | auto | intros ? ? H; exact H | auto ]
  end.

Section Hooks.

Variable env : Env.
Variable config : Config.
Variable fuel : nat.
Variable w0 : World.

Lemma release_ran version isPreRelease changelog clients xs :
  hoare (ran templates w0 xs)
    (Tasks.release env config fuel version isPreRelease changelog clients)
    (fun _ => ran templates w0 (xs ++ configured (afterRelease (clientScripts clients))))
    (fun _ => True).
Proof.
  unfold Tasks.release.
  do 4 ran_keep ran_templates_admits.
  unfold Tasks.wrapUp.
  eapply hoare_bind; [apply hook_ran|intros []; cbv beta].
  ran_last ran_templates_admits.
Qed.

Lemma prepare_ran :
  hoare (ran templates w0 []) (Tasks.prepare env config)
    (fun _ => ran templates w0
                (configured (beforeStart (scripts (options config)))
                 ++ configured (beforeBump (scripts (options config)))
                 ++ configured (afterBump (scripts (options config)))
                 ++ configured (beforeStage (scripts (options config)))))
    (fun _ => True).
Proof.
  unfold Tasks.prepare.
  repeat first
    [ eapply hoare_bind; [apply hook_ran|intros []; cbv beta]
    | ran_keep ran_templates_admits ].
  apply hoare_ret. intros w H. rewrite <- !app_assoc in H. exact H.
Qed.

Lemma releaseDist_ran p xs :
  hoare (ran templates w0 xs) (Tasks.releaseDist env config fuel p)
    (fun _ => ran templates w0
                (xs ++ configured (afterRelease (dist_scripts (dist (options config))))
                 ++ ["!rm -rf " ++ dist_stageDir (dist (options config))]))
    (fun _ => True).
Proof.
  unfold Tasks.releaseDist.
  do 4 ran_keep ran_templates_admits.
  eapply hoare_bind; [apply release_ran|intros []; cbv beta].
  ran_keep ran_templates_admits.
  eapply hoare_weaken; [apply run_ran|intros w H; exact H| |auto].
  intros u w H. cbn [clientScripts Tasks.distClients] in H.
  rewrite <- app_assoc in H. exact H.
Qed.

Lemma pipeline_ran :
  hoare (ran templates w0 []) (Tasks.pipeline env config fuel)
    (fun _ => ran templates w0 (lifecycle (options config)))
    (fun _ => True).
Proof.
  unfold Tasks.pipeline.
  eapply hoare_bind; [apply prepare_ran|intros p].
  eapply hoare_bind; [apply release_ran|intros []; cbv beta].
  eapply hoare_bind with
    (Q := fun _ => ran templates w0 (lifecycle (options config))).
  { unfold lifecycle.
    destruct (Js.truthy (dist_repo (dist (options config)))); unfold when.
    - eapply hoare_weaken; [apply releaseDist_ran|intros w H; exact H| |auto].
      intros u w H. cbn [clientScripts Tasks.primaryClients] in H.
      rewrite <- !app_assoc in H. exact H.
    - apply hoare_ret. intros w H. cbn [clientScripts Tasks.primaryClients] in H.
      rewrite <- !app_assoc in H. rewrite app_nil_r. exact H. }
  intros [].
  ran_last ran_templates_admits.
Qed.

End Hooks.

(** X10: in a run that resolves, the lifecycle hooks that are configured
    have each been handed to [shell.runTemplateCommand] once, in the order
    [beforeStart], [beforeBump], [afterBump], [beforeStage],
    [afterRelease], followed for a distribution repository by its own
    [afterRelease] and the removal of the staging directory; nothing else
    was handed to it. *)
Theorem hooks_in_order :
  forall env config fuel w w' a,
    Tasks.runTasks env config fuel w = (w', Resolved a) ->
    exists l, continues w l w' /\ templates l = lifecycle (options config).
Proof.
  intros env config fuel w w' a H.
  apply runTasks_resolved in H.
  exact (pipeline_ran env config fuel w w w' _ (ran_start w templates eq_refl) H).
Qed.

Lemma hooks_in_order_witness :
  exists l,
    continues Sample.world0 l
      (fst (Tasks.runTasks Sample.happy Sample.hooked 1 Sample.world0))
    /\ templates l
       = ["echo beforeStart"; "echo beforeBump"; "echo afterBump"; "echo beforeStage";
          "echo afterRelease"; "echo dist afterRelease"; "!rm -rf .stage"].
Proof.
  apply (hooks_in_order Sample.happy Sample.hooked 1 Sample.world0 _
           (mkResult "my-package" (Some "* More file") "1.0.0" "1.0.1")).
  vm_compute. reflexivity.
Defined.

(** ** The commands of an unattended run *)

Section Commands.

Variable env : Env.
Variable o : Options.
Variable fuel : nat.
Variable w0 : World.

Lemma settles_ran xs command :
  hoare (ran commands w0 xs) (settles (call env (ShellRun command)))
    (fun up w => if up then ran commands w0 (xs ++ [command]) w else True)
    (fun _ => True).
Proof.
  intros w w' r [l [Hc Hp]] H. unfold settles, call in H.
  destruct (throws env (trace w) (ShellRun command)); inversion H; subst;
    [exact I|].
  exists (l ++ [Called (ShellRun command) None])%list. split.
  - apply continues_emit. exact Hc.
  - rewrite commands_app. reflexivity.
Qed.

Lemma validate_ran options xs :
  hoare (ran commands w0 xs) (Npm.validate env options)
    (fun _ => ran commands w0 (xs ++ registry_checks options)) (fun _ => True).
Proof.
  unfold Npm.validate, registry_checks.
  destruct (npm_publish options); cbn [negb].
  - unfold Npm.isRegistryUp, Npm.isAuthenticated.
    eapply hoare_bind; [apply settles_ran|intros up].
    destruct up; cbn [negb]; [|apply hoare_throw; auto].
    eapply hoare_bind; [apply settles_ran|intros auth].
    destruct auth; cbn [negb]; [|apply hoare_throw; auto].
    apply hoare_ret. intros w H. rewrite <- app_assoc in H. exact H.
  - apply hoare_ret. intros w H. rewrite app_nil_r. exact H.
Qed.

(** Without an OTP callback a publish runs one command, or none for a
    private package. *)
Lemma publish_ran self options version isPreRelease xs :
  hoare (ran commands w0 xs)
    (Npm.publish env self options fuel None version isPreRelease None None)
    (fun _ => ran commands w0
                (xs ++ if npm_private options then []
                       else [Npm.publishCommand options (npm_tag options) version
                               isPreRelease (npm_otp options)]))
    (fun _ => True).
Proof.
  destruct fuel as [|fuel']; [intros w w' r _ H; inversion H; subst; exact I|].
  cbn [Npm.publish]. destruct (npm_name options); [|apply hoare_throw; auto].
  destruct (npm_private options).
  - rewrite app_nil_r. ran_last ran_commands_admits.
  - intros w w' r [l [Hc Hp]] H.
    unfold try_catch, bind, call in H.
    destruct (throws env (trace w) _) as [e|].
    + unfold when, Logger.warn, Logger.log, console, throw, noop, ret in H.
      destruct (Js.includes "one-time pass" (toString e));
        [destruct (Js.is_some _)|]; inversion H; subst; exact I.
    + inversion H; subst.
      match goal with
      | |- ran _ _ (_ ++ [?c]) _ => exists (l ++ [Called (ShellRun c) None])%list
      end.
      split.
      * unfold continues in *. rewrite trace_mark_published.
        simpl. rewrite Hc, app_assoc. reflexivity.
      * rewrite commands_app. reflexivity.
Qed.

Lemma release_commands version isPreRelease changelog clients xs :
  hoare (ran commands w0 xs)
    (Tasks.release env (mkConfig false o) fuel version isPreRelease changelog clients)
    (fun _ => ran commands w0 (xs ++ published_by (npmClient clients) version isPreRelease))
    (fun _ => True).
Proof.
  unfold Tasks.release.
  do 3 ran_keep ran_commands_admits.
  eapply hoare_bind with
    (Q := fun _ => ran commands w0
                     (xs ++ published_by (npmClient clients) version isPreRelease)).
  { unfold Tasks.releaseNpm, Tasks.step, Spinner.show, published_by.
    cbn [isInteractive enabled task Js.default].
    destruct (npm_publish (npmClient clients)); cbn [andb].
    - eapply hoare_weaken; [apply publish_ran|intros w H; exact H| |auto].
      intros u w H. destruct (npm_private (npmClient clients)); exact H.
    - apply hoare_ret. intros w H. rewrite app_nil_r. exact H. }
  intros [].
  ran_last ran_commands_admits.
Qed.

Lemma prepare_commands :
  hoare (ran commands w0 []) (Tasks.prepare env (mkConfig false o))
    (fun _ => ran commands w0 (registry_checks (npm o))) (fun _ => True).
Proof.
  unfold Tasks.prepare.
  do 2 ran_keep ran_commands_admits.
  eapply hoare_bind with (Q := fun _ => ran commands w0 (registry_checks (npm o))).
  { unfold Tasks.validateAll.
    do 4 ran_keep ran_commands_admits.
    apply validate_ran. }
  intros [].
  ran_last ran_commands_admits.
Qed.

Lemma releaseDist_commands p xs :
  hoare (ran commands w0 xs) (Tasks.releaseDist env (mkConfig false o) fuel p)
    (fun _ => ran commands w0
                (xs ++ published_by (dist_npm (dist o)) (Tasks.p_version p)
                         (Tasks.p_isPreRelease p)))
    (fun _ => True).
Proof.
  unfold Tasks.releaseDist.
  do 4 ran_keep ran_commands_admits.
  eapply hoare_bind; [apply release_commands|intros []; cbv beta].
  ran_last ran_commands_admits.
Qed.

Lemma pipeline_commands :
  hoare (ran commands w0 []) (Tasks.pipeline env (mkConfig false o) fuel)
    (fun a w =>
       exists isPreRelease,
         ran commands w0
           (registry_checks (npm o)
            ++ published_by (npm o) (result_version a) isPreRelease
            ++ (if Js.truthy (dist_repo (dist o))
                then published_by (dist_npm (dist o)) (result_version a) isPreRelease
                else [])) w)
    (fun _ => True).
Proof.
  unfold Tasks.pipeline.
  eapply hoare_bind; [apply prepare_commands|intros p].
  eapply hoare_bind; [apply release_commands|intros []; cbv beta].
  eapply hoare_bind with
    (Q := fun _ =>
            ran commands w0
              (registry_checks (npm o)
               ++ published_by (npm o) (Tasks.p_version p) (Tasks.p_isPreRelease p)
               ++ (if Js.truthy (dist_repo (dist o))
                   then published_by (dist_npm (dist o)) (Tasks.p_version p)
                          (Tasks.p_isPreRelease p)
                   else []))).
  { cbn [options]. destruct (Js.truthy (dist_repo (dist o))); unfold when.
    - eapply hoare_weaken; [apply releaseDist_commands|intros w H; exact H| |auto].
      intros u w H. cbn [npmClient Tasks.primaryClients options] in H.
      rewrite <- !app_assoc in H. exact H.
    - apply hoare_ret. intros w H. cbn [npmClient Tasks.primaryClients options] in H.
      rewrite app_nil_r. exact H. }
  intros [].
  do 3 ran_keep ran_commands_admits.
  apply hoare_ret. intros w H. exists (Tasks.p_isPreRelease p). exact H.
Qed.

End Commands.

(** X11: an unattended run that resolves has handed [shell.run] the two
    checks of the registry when the primary client is to publish, then the
    publish command of the primary client, then that of the client of the
    distribution repository when there is one, each publish command only
    for a client that is to publish a package that is not private, and
    nothing else; the publish commands carry the version the run
    returns. *)
Theorem unattended_commands :
  forall env o fuel w w' a,
    Tasks.runTasks env (mkConfig false o) fuel w = (w', Resolved a) ->
    exists l isPreRelease,
      continues w l w'
      /\ commands l
         = (registry_checks (npm o)
            ++ published_by (npm o) (result_version a) isPreRelease
            ++ (if Js.truthy (dist_repo (dist o))
                then published_by (dist_npm (dist o)) (result_version a) isPreRelease
                else []))%list.
Proof.
  intros env o fuel w w' a H.
  apply runTasks_resolved in H.
  destruct (pipeline_commands env o fuel w w w' _ (ran_start w commands eq_refl) H)
    as [isPreRelease [l [Hl Hcommands]]].
  exists l, isPreRelease. split; assumption.
Qed.

Lemma unattended_commands_witness :
  exists l isPreRelease,
    continues Sample.world0 l
      (fst (Tasks.runTasks Sample.happy Sample.unattended 1 Sample.world0))
    /\ commands l
       = (registry_checks Sample.pkg
          ++ published_by Sample.pkg "1.0.1" isPreRelease
          ++ [])%list.
Proof.
  apply (unattended_commands Sample.happy Sample.opts 1 Sample.world0 _
           (mkResult "my-package" (Some "* More file") "1.0.0" "1.0.1")).
  vm_compute. reflexivity.
Defined.

(** ** How a run closes *)

Lemma pipeline_closes env config fuel w0 :
  hoare (waiting is_closing w0 []) (Tasks.pipeline env config fuel)
    (fun _ w =>
       exists l line,
         continues w0 (l ++ [Called (MetricsTrackEvent "end") None; Console Stdout line]) w
         /\ forall c f, In (Called c f) l -> is_closing c = false)
    (waiting is_closing w0 []).
Proof.
  pose proof (waiting_admits is_closing w0 []) as Hadmits.
  pose proof (waiting_ignores_published is_closing w0 []) as Hpub.
  pose proof (waiting_ignores_dirs is_closing w0 []) as Hdirs.
  unfold Tasks.pipeline.
  do 3 (eapply hoare_bind with (Q := fun _ => waiting is_closing w0 []);
        [apply hoare_invariant; [solve [repeat pres_more]|auto]|intro]).
  intros w w' r [l [Hc [Hun _]]] H.
  unfold bind, notify, read_text, Logger.log, console, ret in H.
  inversion H; subst.
  eexists l, _. split.
  - unfold continues in *. simpl. rewrite Hc, <- !app_assoc. reflexivity.
  - intros c f Hin. apply Hun in Hin. simpl in Hin.
    apply negb_true_iff. exact Hin.
Qed.

(** X12: every run closes in exactly one way.  A run that resolves ends
    with the report of [end] to the metrics and the line that says it is
    done; a run that is rejected ends with the report of the error it is
    rejected with and the error line; before that, and in a run that does
    not settle, neither [end] nor an error was reported. *)
Theorem run_closes_once :
  forall env config fuel w,
    exists l,
      continues w l (fst (Tasks.runTasks env config fuel w))
      /\ match snd (Tasks.runTasks env config fuel w) with
         | Resolved _ =>
             exists l0 line,
               l = (l0 ++ [Called (MetricsTrackEvent "end") None;
                           Console Stdout line])%list
               /\ forall c f, In (Called c f) l0 -> is_closing c = false
         | Rejected e =>
             exists l0 line,
               l = (l0 ++ [Called (MetricsTrackException e) None;
                           Console Stderr line])%list
               /\ forall c f, In (Called c f) l0 -> is_closing c = false
         | Pending => forall c f, In (Called c f) l -> is_closing c = false
         end.
Proof.
  intros env config fuel w.
  pose proof (pipeline_closes env config fuel w w) as Hp.
  unfold Tasks.runTasks, try_catch.
  destruct (Tasks.pipeline env config fuel w) as [w1 [a|e|]] eqn:E;
    specialize (Hp w1 _ (waiting_start is_closing w) eq_refl); simpl in Hp.
  - destruct Hp as [l0 [line [Hc Hun]]]. simpl.
    eexists. split; [exact Hc|]. exists l0, line. split; [reflexivity|exact Hun].
  - rewrite handler_run. simpl.
    destruct Hp as [l0 [Hc [Hun _]]].
    eexists. split.
    + unfold continues in *. simpl. rewrite Hc, <- !app_assoc. reflexivity.
    + eexists l0, _. split; [reflexivity|].
      intros c f Hin. apply Hun in Hin. simpl in Hin.
      apply negb_true_iff. exact Hin.
  - simpl. destruct Hp as [l0 [Hc [Hun _]]].
    exists l0. split; [exact Hc|].
    intros c f Hin. apply Hun in Hin. simpl in Hin.
    apply negb_true_iff. exact Hin.
Qed.

(** ** Publishing comes last *)

Section PublishLast.

Variable env : Env.
Variable o : Options.
Variable fuel : nat.
Variable w0 : World.
Variable required : list Event.

(** An unattended step that runs one call, when it is enabled. *)
Lemma step_waiting (b : bool) c seen label prompt forced :
  is_publish_command c = false ->
  hoare (waiting is_publish_command w0 seen)
    (Tasks.step env (mkConfig false o) (mkStep (Some b) (call env c) label prompt forced))
    (fun _ => waiting is_publish_command w0
                ((if b then [Called c None] else []) ++ seen))
    (gate_kept is_publish_command required w0).
Proof.
  intros Hc. unfold Tasks.step, Spinner.show.
  cbn [isInteractive enabled task Js.default].
  destruct b.
  - apply call_waiting. exact Hc.
  - apply hoare_ret. intros w H. exact H.
Qed.

Lemma release_publishes_last version isPreRelease changelog clients :
  required = steps_before_publish version isPreRelease changelog clients ->
  hoare (waiting is_publish_command w0 [])
    (Tasks.release env (mkConfig false o) fuel version isPreRelease changelog clients)
    (fun _ => gate_kept is_publish_command required w0)
    (gate_kept is_publish_command required w0).
Proof.
  intros Hrequired.
  set (t := target clients).
  set (committed := ((if git_commit (gitClient clients)
                     then [Called (GitCommit t) None] else []) ++ [])%list).
  set (tagged := ((if git_tag (gitClient clients)
                  then [Called (GitTag t) None] else []) ++ committed)%list).
  set (pushed := ((if git_push (gitClient clients)
                  then [Called (GitPush t) None] else []) ++ tagged)%list).
  set (released := ((if github_release (ghClient clients)
                    then [Called (GitHubRelease t version isPreRelease changelog) None]
                    else []) ++ pushed)%list).
  set (uploaded := ((if Js.is_some (github_assets (ghClient clients))
                    then [Called (GitHubUploadAssets t) None] else []) ++ released)%list).
  unfold Tasks.release.
  eapply hoare_bind with (Q := fun _ => waiting is_publish_command w0 pushed).
  { unfold Tasks.releaseGit.
    pose proof (waiting_admits is_publish_command w0 []) as Hwait.
    keep (waiting is_publish_command w0 []) ltac:(apply waiting_gate_kept).
    eapply hoare_bind with (Q := fun _ => waiting is_publish_command w0 committed);
      [apply step_waiting; reflexivity|intros _].
    eapply hoare_bind with (Q := fun _ => waiting is_publish_command w0 tagged);
      [apply step_waiting; reflexivity|intros _].
    apply step_waiting. reflexivity. }
  intros _.
  eapply hoare_bind with (Q := fun _ => waiting is_publish_command w0 uploaded).
  { unfold Tasks.releaseGitHub, Tasks.githubSteps. cbn [isInteractive].
    pose proof (waiting_admits is_publish_command w0 pushed) as Hwait.
    keep (waiting is_publish_command w0 pushed) ltac:(apply waiting_gate_kept).
    eapply hoare_bind with (Q := fun _ => waiting is_publish_command w0 released);
      [|intros _; unfold Tasks.ghUploadAssets; apply step_waiting; reflexivity].
    unfold Tasks.step, Spinner.show, Tasks.ghRelease.
    cbn [isInteractive enabled task Js.default].
    subst released. destruct (github_release (ghClient clients)).
    - intros w w' r Hw H. unfold bind, call_truthy, noop, ret in H.
      destruct (throws env (trace w) _) as [e|]; inversion H; subst.
      + eapply waiting_gate_kept. apply waiting_emit; [reflexivity|exact Hw].
      + apply waiting_emit; [reflexivity|exact Hw].
    - apply hoare_ret. intros w H. exact H. }
  intros _.
  eapply hoare_bind with (Q := fun _ => gate_open is_publish_command required w0).
  { unfold Tasks.releaseGitLab.
    pose proof (waiting_admits is_publish_command w0 uploaded) as Hwait.
    keep (waiting is_publish_command w0 uploaded) ltac:(apply waiting_gate_kept).
    eapply hoare_weaken;
      [apply (step_waiting (gitlab_release (glClient clients))
                (GitLabRelease t version changelog) uploaded); reflexivity
      |intros w H; exact H| |intros w H; exact H].
    intros u w Hw. eapply waiting_done; [|exact Hw].
    rewrite Hrequired. unfold steps_before_publish.
    subst uploaded released pushed tagged committed. fold t.
    intros ev Hin.
    repeat (apply in_app_or in Hin; destruct Hin as [Hin|Hin]);
      repeat (apply in_or_app; first [left; exact Hin|right]);
      try exact Hin. }
  intros _.
  pose proof (gate_open_admits is_publish_command required w0) as Hadmits.
  pose proof (gate_open_ignores_published is_publish_command required w0) as Hpub.
  eapply hoare_weaken;
    [apply hoare_invariant with (I := gate_open is_publish_command required w0)
           (X := gate_kept is_publish_command required w0);
     [pres_tasks|apply gate_open_kept]
    |auto|intros u w; apply gate_open_kept|auto].
Qed.

End PublishLast.

(** X13: in an unattended release the package is published last: a
    publish command is handed to the shell only after each step that is
    enabled for the same clients (commit, tag, push, GitHub release, upload
    of its assets, GitLab release) has gone through without an error. *)
Theorem unattended_publishes_last :
  forall env o fuel version isPreRelease changelog clients w,
    exists l,
      continues w l
        (fst (Tasks.release env (mkConfig false o) fuel version isPreRelease changelog
                clients w))
      /\ gated is_publish_command
           (steps_before_publish version isPreRelease changelog clients) l.
Proof.
  intros env o fuel version isPreRelease changelog clients w.
  pose proof (release_publishes_last env o fuel w _ version isPreRelease changelog
                clients eq_refl w) as H.
  destruct (Tasks.release env (mkConfig false o) fuel version isPreRelease changelog
              clients w) as [w' r].
  specialize (H w' r (waiting_start is_publish_command w) eq_refl).
  destruct r; exact H.
Qed.

(** ** Declined confirmations *)

Lemma show_declined env allowed (I : World -> Prop) d p :
  (forall tr q, truth env tr (PromptShow q) = false) ->
  admits allowed I ->
  (forall f, allowed (Called (PromptShow p) f) = true) ->
  prompt d = Some p ->
  preserves I (Prompt.show env d).
Proof.
  intros Hdecline Hadmits Hallowed Hprompt. unfold Prompt.show.
  destruct (Js.default true (enabled d)); [|apply preserves_noop].
  rewrite Hprompt.
  intros w w' r HI H. unfold bind, call_truthy in H.
  destruct (throws env (trace w) (PromptShow p)).
  - inversion H; subst. apply Hadmits; auto.
  - rewrite Hdecline in H. inversion H; subst. apply Hadmits; auto.
Qed.

Lemma pipeline_declined env o fuel w0 :
  (forall tr q, truth env tr (PromptShow q) = false) ->
  preserves (waiting is_confirmed w0 []) (Tasks.pipeline env (mkConfig true o) fuel).
Proof.
  intros Hdecline.
  pose proof (waiting_admits is_confirmed w0 []) as Hwait.
  pose proof (waiting_ignores_published is_confirmed w0 []) as Hpub.
  pose proof (waiting_ignores_dirs is_confirmed w0 []) as Hdirs.
  unfold Tasks.pipeline.
  repeat first
    [ progress cbn [isInteractive andb]
    | match goal with
      | |- preserves _ (Tasks.step _ _ _) =>
          unfold Tasks.step; cbn [isInteractive];
          eapply show_declined;
          [exact Hdecline | eassumption | intro; reflexivity | reflexivity]
      end
    | pres_more ].
Qed.

(** X14: in an interactive run in which every confirmation is declined,
    nothing is committed, tagged or pushed, no release is made, no asset
    uploaded and no package published, in the primary repository or in the
    distribution repository, whatever else happens. *)
Theorem declined_steps_are_skipped :
  forall env o fuel w,
    (forall tr q, truth env tr (PromptShow q) = false) ->
    exists l,
      continues w l (fst (Tasks.runTasks env (mkConfig true o) fuel w))
      /\ forall c f, In (Called c f) l -> is_confirmed c = false.
Proof.
  intros env o fuel w Hdecline.
  assert (H : waiting is_confirmed w []
                (fst (Tasks.runTasks env (mkConfig true o) fuel w))).
  { apply runTasks_keeps.
    - intros e w1. apply waiting_admits. reflexivity.
    - intros line w1. apply waiting_admits. reflexivity.
    - destruct (Tasks.pipeline env (mkConfig true o) fuel w) as [w1 r] eqn:E.
      apply (pipeline_declined env o fuel w Hdecline w w1 r); [|exact E].
      apply waiting_start. }
  destruct H as [l [Hl [Hun _]]].
  exists l. split; [exact Hl|].
  intros c f Hin. apply Hun in Hin. simpl in Hin.
  apply negb_true_iff. exact Hin.
Qed.

Lemma declined_steps_are_skipped_witness :
  (exists l,
      continues Sample.world0 l
        (fst (Tasks.runTasks Sample.declining Sample.interactive 1 Sample.world0))
      /\ forall c f, In (Called c f) l -> is_confirmed c = false)
  /\ snd (Tasks.runTasks Sample.declining Sample.interactive 1 Sample.world0)
     = Resolved (mkResult "my-package" (Some "* More file") "1.0.0" "1.0.1").
Proof.
  split.
  - apply (declined_steps_are_skipped Sample.declining Sample.opts 1 Sample.world0).
    intros tr q. reflexivity.
  - vm_compute. reflexivity.
Defined.

(** ** The handlers that reset the package files *)

Lemma prepare_registers_handlers env config w0 :
  resets_on_exit config = true ->
  hoare (waiting is_bump w0 []) (Tasks.prepare env config)
    (fun _ => gate_open is_bump
                [Called (ProcessOn "SIGINT") None; Called (ProcessOn "exit") None] w0)
    (gate_kept is_bump
       [Called (ProcessOn "SIGINT") None; Called (ProcessOn "exit") None] w0).
Proof.
  intros Hresets. unfold resets_on_exit in Hresets.
  set (required := [Called (ProcessOn "SIGINT") None; Called (ProcessOn "exit") None]).
  unfold Tasks.prepare. rewrite Hresets.
  pose proof (waiting_admits is_bump w0 []) as Hwait.
  do 18 (keep (waiting is_bump w0 []) ltac:(apply waiting_gate_kept)).
  eapply hoare_bind with (Q := fun _ => gate_open is_bump required w0).
  { intros w w' r Hw H. unfold when, bind, notify in H. inversion H; subst.
    eapply waiting_done;
      [|apply waiting_emit; [reflexivity|apply waiting_emit; [reflexivity|exact Hw]]].
    intros ev Hin. simpl in Hin |- *. tauto. }
  intros []. clear Hwait.
  pose proof (gate_open_admits is_bump required w0) as Hadmits.
  apply hoare_invariant; [|apply gate_open_kept].
  pres_tasks.
Qed.

Lemma pipeline_registers_nothing env config fuel w0 :
  resets_on_exit config = false ->
  preserves (waiting is_handler w0 []) (Tasks.pipeline env config fuel).
Proof.
  intros Hresets. unfold resets_on_exit in Hresets.
  pose proof (waiting_admits is_handler w0 []) as Hwait.
  pose proof (waiting_ignores_published is_handler w0 []) as Hpub.
  pose proof (waiting_ignores_dirs is_handler w0 []) as Hdirs.
  unfold Tasks.pipeline.
  repeat first
    [ rewrite Hresets
    | match goal with
      | |- context [when false ?m] => change (when false m) with noop
      end
    | pres_more ].
Qed.

(** X15: the handlers that reset the package files when the process is
    interrupted or exits are registered only by an interactive run with
    package files and a working directory required to be clean; such a run
    has registered both before it rewrites the manifest, and any other run
    registers no handler at all. *)
Theorem handlers_before_bump :
  forall env config fuel w,
    exists l,
      continues w l (fst (Tasks.runTasks env config fuel w))
      /\ if resets_on_exit config
         then gated is_bump
                [Called (ProcessOn "SIGINT") None; Called (ProcessOn "exit") None] l
         else forall c f, In (Called c f) l -> is_handler c = false.
Proof.
  intros env config fuel w.
  destruct (resets_on_exit config) eqn:Hresets.
  - apply runTasks_gate; [reflexivity|].
    apply (pipeline_hoare env config fuel (waiting is_bump w [])
             (gate_open is_bump
                [Called (ProcessOn "SIGINT") None; Called (ProcessOn "exit") None] w)).
    + apply gate_open_admits.
    + apply gate_open_ignores_published.
    + apply gate_open_ignores_dirs.
    + apply gate_open_kept.
    + apply prepare_registers_handlers. exact Hresets.
    + apply waiting_start.
  - assert (H : waiting is_handler w [] (fst (Tasks.runTasks env config fuel w))).
    { apply runTasks_keeps.
      - intros e w1. apply waiting_admits. reflexivity.
      - intros line w1. apply waiting_admits. reflexivity.
      - destruct (Tasks.pipeline env config fuel w) as [w1 r] eqn:E.
        apply (pipeline_registers_nothing env config fuel w Hresets w w1 r);
          [|exact E].
        apply waiting_start. }
    destruct H as [l [Hl [Hun _]]].
    exists l. split; [exact Hl|].
    intros c f Hin. apply Hun in Hin. simpl in Hin.
    apply negb_true_iff. exact Hin.
Qed.

(** ** The first error ends the run *)

Lemma unbroken_start w0 : unbroken w0 w0.
Proof.
  exists []. split; [|intros ev []].
  unfold continues. rewrite app_nil_r. reflexivity.
Qed.

Lemma unbroken_admits w0 : admits survivable (unbroken w0).
Proof.
  intros ev w Hev [l [Hc Hl]]. exists (l ++ [ev])%list. split.
  - apply continues_emit. exact Hc.
  - intros ev' Hin. apply in_app_or in Hin. destruct Hin as [Hin|[<-|[]]]; auto.
Qed.

Lemma unbroken_ignores_published w0 : ignores_published (unbroken w0).
Proof.
  intros t w [l [Hc H]]. exists l. split; [|exact H].
  unfold continues in *. rewrite trace_mark_published. exact Hc.
Qed.

Lemma unbroken_ignores_dirs w0 : ignores_dirs (unbroken w0).
Proof.
  intros w [l [Hc H]]. split; [intros d|]; exists l; (split; [|exact H]);
    unfold continues in *; [|rewrite trace_leave_dir]; exact Hc.
Qed.

Section Stops.

Variable env : Env.
Variable I : World -> Prop.
Hypothesis Hadmits : admits survivable I.
Hypothesis Hpub : ignores_published I.
Hypothesis Hdirs : ignores_dirs I.

Lemma stops_of_preserves {A} (m : M A) : preserves I m -> stops I m.
Proof.
  intros Hm w w' r HI H. specialize (Hm w w' r HI H). destruct r; auto.
Qed.

Lemma stops_bind {A B} (m : M A) (f : A -> M B) :
  stops I m -> (forall a, stops I (f a)) -> stops I (bind m f).
Proof.
  intros Hm Hf w w' r HI H. unfold bind in H.
  destruct (m w) as [w1 [a|e|]] eqn:E.
  - exact (Hf a w1 w' r (Hm _ _ _ HI E) H).
  - inversion H; subst. exact (Hm _ _ _ HI E).
  - inversion H; subst. exact (Hm _ _ _ HI E).
Qed.

Lemma stops_when (b : bool) m : stops I m -> stops I (when b m).
Proof.
  intros Hm. destruct b; [exact Hm|].
  apply stops_of_preserves, preserves_noop.
Qed.

Lemma stops_call c : stops I (call env c).
Proof.
  intros w w' r HI H. unfold call in H.
  destruct (throws env (trace w) c) as [e|]; inversion H; subst.
  - right. exists w, c. split; [exact HI|reflexivity].
  - apply Hadmits; [|exact HI]. simpl. apply orb_true_r.
Qed.

Lemma stops_call_text c : stops I (call_text env c).
Proof.
  intros w w' r HI H. unfold call_text in H.
  destruct (throws env (trace w) c) as [e|]; inversion H; subst.
  - right. exists w, c. split; [exact HI|reflexivity].
  - apply Hadmits; [|exact HI]. simpl. apply orb_true_r.
Qed.

Lemma stops_call_truthy c : stops I (call_truthy env c).
Proof.
  intros w w' r HI H. unfold call_truthy in H.
  destruct (throws env (trace w) c) as [e|]; inversion H; subst.
  - right. exists w, c. split; [exact HI|reflexivity].
  - apply Hadmits; [|exact HI]. simpl. apply orb_true_r.
Qed.

Lemma stops_pushd dir : stops I (pushd env dir).
Proof.
  unfold pushd. apply stops_bind; [apply stops_call|].
  intros _. apply stops_of_preserves.
  intros w w' r HI H. inversion H; subst. apply Hdirs. exact HI.
Qed.

Lemma stops_popd : stops I (popd env).
Proof.
  unfold popd. apply stops_bind; [apply stops_call|].
  intros _. apply stops_of_preserves.
  intros w w' r HI H. inversion H; subst. apply Hdirs. exact HI.
Qed.

Lemma stops_try_catch {A} (m : M A) handler :
  preserves I m -> (forall e, stops I (handler e)) -> stops I (try_catch m handler).
Proof.
  intros Hm Hh w w' r HI H. unfold try_catch in H.
  destruct (m w) as [w1 [a|e|]] eqn:E.
  - inversion H; subst. exact (Hm _ _ _ HI E).
  - exact (Hh e w1 w' r (Hm _ _ _ HI E) H).
  - inversion H; subst. exact (Hm _ _ _ HI E).
Qed.

Lemma askOtp_stops task :
  (forall otp, stops I (task otp)) -> stops I (Tasks.askOtp env task).
Proof.
  intros Htask. unfold Tasks.askOtp, Prompt.ask.
  apply stops_bind; [apply stops_call_text|intro; apply Htask].
Qed.

Lemma publish_stops self opts fuel :
  forall tag version isPreRelease otp otpCallback,
    match otpCallback with
    | Some callback =>
        forall task, (forall o, stops I (task o)) -> stops I (callback task)
    | None => True
    end ->
    stops I (Npm.publish env self opts fuel tag version isPreRelease otp otpCallback).
Proof.
  induction fuel as [|fuel IH]; intros tag version isPreRelease otp cb Hcb.
  - apply stops_of_preserves, preserves_pending.
  - cbn [Npm.publish].
    destruct (npm_name opts); [|apply stops_of_preserves, preserves_throw].
    destruct (npm_private opts).
    { apply stops_of_preserves. pres. }
    apply stops_try_catch.
    + apply preserves_bind.
      * eapply preserves_call; [exact Hadmits|intro; reflexivity].
      * intros _ w w' r HI H. inversion H; subst. apply Hpub. exact HI.
    + intros err. destruct (Js.includes "one-time pass" (toString err));
        [|apply stops_of_preserves, preserves_throw].
      apply stops_bind.
      * apply stops_of_preserves. pres.
      * intros _. destruct cb as [callback|];
          [|apply stops_of_preserves, preserves_throw].
        apply Hcb. intros o. apply IH. exact Hcb.
Qed.

End Stops.

(** One step of a proof that a promise stops at the first rejected call. *)
Ltac stops_step :=
  match goal with
  | |- stops _ (bind _ _) => eapply stops_bind; [|intro]
  | |- stops _ (call _ _) => eapply stops_call; eassumption
  | |- stops _ (call_text _ _) => eapply stops_call_text; eassumption
  | |- stops _ (call_truthy _ _) => eapply stops_call_truthy; eassumption
  | |- stops _ (when _ _) => eapply stops_when
  | |- stops _ (pushd _ _) => eapply stops_pushd; eassumption
  | |- stops _ (popd _) => eapply stops_popd; eassumption
  | |- stops _ (Npm.publish _ _ _ _ _ _ _ _ _) =>
      eapply publish_stops; [eassumption | eassumption | ]
  | |- True => exact Logic.I
  | |- forall task, _ -> stops _ (Tasks.askOtp _ task) =>
      intros ? ?; eapply askOtp_stops; [eassumption | eassumption]
  | |- stops _ (Spinner.show _) => unfold Spinner.show; cbn [enabled task prompt]
  | |- stops _ (Prompt.show _ _) => unfold Prompt.show; cbn [enabled task prompt]
  | |- stops _ (Prompt.ask _ _ _) => unfold Prompt.ask
  | |- stops _ (Tasks.hook _ _) => unfold Tasks.hook, Tasks.run
  | |- stops _ (Tasks.run _ _) => unfold Tasks.run
  | |- stops _ (Tasks.step _ _ _) => unfold Tasks.step
  | |- stops _ (Tasks.validateAll _ _) => unfold Tasks.validateAll
  | |- stops _ (Tasks.generateAndPreviewChangelog _) =>
      unfold Tasks.generateAndPreviewChangelog
  | |- stops _ (Tasks.releaseGit _ _ _) => unfold Tasks.releaseGit
  | |- stops _ (Tasks.releaseGitHub _ _ _ _ _ _) => unfold Tasks.releaseGitHub
  | |- stops _ (Tasks.githubSteps _ _ _ _ _ _) =>
      unfold Tasks.githubSteps, Tasks.ghRelease, Tasks.ghUploadAssets
  | |- stops _ (Tasks.releaseGitLab _ _ _ _ _) => unfold Tasks.releaseGitLab
  | |- stops _ (Tasks.releaseNpm _ _ _ _ _ _) => unfold Tasks.releaseNpm
  | |- stops _ (Tasks.wrapUp _ _) => unfold Tasks.wrapUp
  | |- stops _ (Tasks.release _ _ _ _ _ _ _) => unfold Tasks.release
  | |- stops _ (Tasks.releaseDist _ _ _ _) => unfold Tasks.releaseDist
  | |- stops _ (Tasks.prepare _ _) => unfold Tasks.prepare
  | |- stops _ (if ?b then _ else _) => destruct b
  | |- stops _ (match ?o with _ => _ end) => destruct o
  | |- stops _ _ => eapply stops_of_preserves; solve [repeat pres_more]
  end.

Lemma pipeline_stops env config fuel w0 :
  stops (unbroken w0) (Tasks.pipeline env config fuel).
Proof.
  pose proof (unbroken_admits w0) as Hadmits.
  pose proof (unbroken_ignores_published w0) as Hpub.
  pose proof (unbroken_ignores_dirs w0) as Hdirs.
  unfold Tasks.pipeline.
  repeat stops_step.
Qed.

(** X16: the first call that is rejected ends the run, and its error is
    the error of the run.  In a run that is rejected, a call that failed
    is either a command of the shell (a check of the registry, a publish)
    or the last thing recorded before the error is reported, and then the
    run is rejected with the error of that call. *)
Theorem first_error_ends_the_run :
  forall env config fuel w w' e,
    Tasks.runTasks env config fuel w = (w', Rejected e) ->
    exists l line,
      continues w (l ++ [Called (MetricsTrackException e) None; Console Stderr line]) w'
      /\ forall l1 c e' l2,
           l = (l1 ++ Called c (Some e') :: l2)%list ->
           is_command c = true \/ (l2 = [] /\ e' = e).
Proof.
  intros env config fuel w w' e H.
  pose proof (pipeline_stops env config fuel w w) as Hp.
  unfold Tasks.runTasks, try_catch in H.
  destruct (Tasks.pipeline env config fuel w) as [w1 [a|e1|]] eqn:E;
    [discriminate| |discriminate].
  rewrite handler_run in H. inversion H; subst. clear H.
  specialize (Hp w1 _ (unbroken_start w) eq_refl). simpl in Hp.
  assert (Hsurvived : forall l c e' l1 l2,
             (forall ev, In ev l -> survivable ev = true) ->
             l = (l1 ++ Called c (Some e') :: l2)%list -> is_command c = true).
  { intros l c e' l1 l2 Hl ->.
    assert (Hin : In (Called c (Some e')) (l1 ++ Called c (Some e') :: l2)).
    { apply in_or_app. right. left. reflexivity. }
    apply Hl in Hin. simpl in Hin. rewrite orb_false_r in Hin. exact Hin. }
  destruct Hp as [[l [Hc Hl]]|[w2 [c [[l [Hc Hl]] ->]]]].
  - eexists l, _. split.
    + unfold continues in *. simpl. rewrite Hc, <- !app_assoc. reflexivity.
    + intros l1 c e' l2 Heq. left. exact (Hsurvived l c e' l1 l2 Hl Heq).
  - eexists (l ++ [Called c (Some e)])%list, _. split.
    + unfold continues in *. simpl. rewrite Hc, <- !app_assoc. reflexivity.
    + intros l1 c' e' l2 Heq.
      induction l2 as [|x l2 _] using rev_ind.
      * apply app_inj_tail in Heq. destruct Heq as [_ Heq].
        inversion Heq; subst. right. split; reflexivity.
      * change (l1 ++ Called c' (Some e') :: l2 ++ [x])%list
          with (l1 ++ (Called c' (Some e') :: l2) ++ [x])%list in Heq.
        rewrite app_assoc in Heq. apply app_inj_tail in Heq.
        destruct Heq as [Heq _]. left.
        exact (Hsurvived l c' e' l1 l2 Hl Heq).
Qed.

Lemma first_error_ends_the_run_witness :
  exists l line,
    continues Sample.world0
      (l ++ [Called (MetricsTrackException Sample.nothing_to_commit) None;
             Console Stderr line])
      (fst (Tasks.runTasks Sample.dist_commit_fails Sample.with_dist 1 Sample.world0))
    /\ forall l1 c e' l2,
         l = (l1 ++ Called c (Some e') :: l2)%list ->
         is_command c = true \/ (l2 = [] /\ e' = Sample.nothing_to_commit).
Proof.
  apply (first_error_ends_the_run Sample.dist_commit_fails Sample.with_dist 1
           Sample.world0).
  vm_compute. reflexivity.
Defined.

(** * The errors of a run *)





